(** * kube-agentic-networking: policy compiler and xDS distribution server

    A shallow embedding of the translator package (AuthPolicy to Envoy RBAC,
    Backend to Envoy cluster) and of the xDS server's snapshot publishing,
    together with the properties the specification states about them. *)

From Stdlib Require Import ZArith.
From stdpp Require Import gmap strings list pretty.

Set Warnings "-register-all".
Open Scope string_scope.
Open Scope list_scope.

(** Go functions returning [(T, error)]. *)
Inductive result (A : Type) : Type :=
| Ok (a : A)
| Err (msg : string).
Arguments Ok {A} a.
Arguments Err {A} msg.

(* ===================================================================== *)
(** ** Envoy configuration messages (the protobuf types the code builds) *)
(* ===================================================================== *)

(** [matcherv3.StringMatcher]: the translator only builds [Exact]. *)
Inductive StringMatcher : Type :=
| StringMatcher_Exact (exact : string).

(** [matcherv3.ValueMatcher] with the two patterns the translator uses. *)
Inductive ValueMatcher : Type :=
| ValueMatcher_StringMatch (sm : StringMatcher)
| ValueMatcher_OrMatch (value_matchers : list ValueMatcher).

(** [routev3.HeaderMatcher]. *)
Inductive HeaderMatchSpecifier : Type :=
| HeaderMatcher_StringMatch (sm : StringMatcher)
| HeaderMatcher_PresentMatch (present : bool).

Record HeaderMatcher : Type := {
  hm_Name : string;
  hm_Specifier : HeaderMatchSpecifier
}.

(** [matcherv3.MetadataMatcher]: filter name, path of keys, value matcher. *)
Record MetadataMatcher : Type := {
  mm_Filter : string;
  mm_Path : list string;
  mm_Value : ValueMatcher
}.

(** [rbacconfigv3.Principal]. *)
Inductive Principal : Type :=
| Principal_AndIds (ids : list Principal)
| Principal_OrIds (ids : list Principal)
| Principal_Any (any : bool)
| Principal_Header (header : HeaderMatcher).

(** [rbacconfigv3.Permission]. *)
Inductive Permission : Type :=
| Permission_AndRules (rules : list Permission)
| Permission_OrRules (rules : list Permission)
| Permission_Any (any : bool)
| Permission_Header (header : HeaderMatcher)
| Permission_SourcedMetadata (metadata_matcher : MetadataMatcher).

(** [rbacconfigv3.Policy]. *)
Record Policy : Type := {
  Principals : list Principal;
  Permissions : list Permission
}.

(** [rbacconfigv3.RBAC_Action]. *)
Inductive RBAC_Action : Type := RBAC_ALLOW | RBAC_DENY | RBAC_LOG.

(** [rbacconfigv3.RBAC], the [Rules] of the HTTP filter's [rbacv3.RBAC]. *)
Record RBAC : Type := {
  Action : RBAC_Action;
  Policies : gmap string Policy
}.

(* ===================================================================== *)
(** ** API types (api/agentic/v1alpha1)                                  *)
(* ===================================================================== *)

Definition AuthPolicyAction := string.
Definition ActionAllow : AuthPolicyAction := "ALLOW".

Record Source : Type := {
  Identities : list string;
  ServiceAccounts : list string
}.

Record AuthRule : Type := {
  rule_Source : Source;
  Tools : list string
}.

(** [gwapiv1.LocalPolicyTargetReference]. *)
Record LocalPolicyTargetReference : Type := {
  ref_Group : string;
  ref_Kind : string;
  ref_Name : string
}.

Record AuthPolicySpec : Type := {
  TargetRef : LocalPolicyTargetReference;
  Rules : list AuthRule;
  spec_Action : AuthPolicyAction
}.

Record AuthPolicy : Type := {
  ap_Namespace : string;
  ap_Name : string;
  ap_Spec : AuthPolicySpec
}.

(** Modelled from the spec: the Backend type declaration is not among the
    sources; the translator reads [Namespace], [Name] and, under
    [Spec.MCP], [ServiceName], [Hostname] and [Port] (an int32, converted
    with [uint32(...)] where it is used). *)
Record Backend : Type := {
  Namespace : string;
  Name : string;
  ServiceName : string;
  Hostname : string;
  Port : Z
}.

(** [authPolicyLister.AuthPolicies(ns).List(labels.Everything())]. *)
Definition AuthPolicyLister := string -> result (list AuthPolicy).

(* ===================================================================== *)
(** ** pkg/translator: constants                                         *)
(* ===================================================================== *)

Definition allowMCPSessionClosePolicyName : string := "allow-mcp-session-close".
Definition allowAnyoneToInitializeAndListToolsPolicyName : string :=
  "allow-anyone-to-initialize-and-list-tools".
Definition initializeMethod : string := "initialize".
Definition initializedMethod : string := "notifications/initialized".
Definition toolsListMethod : string := "tools/list".
Definition mcpSessionIDHeader : string := "mcp-session-id".
Definition toolsCallMethod : string := "tools/call".
Definition mcpProxyFilterName : string := "mcp_proxy".

(** [fmt.Sprintf(ClusterNameFormat, ns, name)] with format ["%s-%s"]. *)
Definition ClusterName (ns name : string) : string :=
  ns +:+ "-" +:+ name.

(** [fmt.Sprintf(RBACPolicyNameFormat, ns, name, i)] with format
    ["%s-%s-rule-%d"]; [i] is a slice index, printed in decimal. *)
Definition RBACPolicyName (ns name : string) (i : nat) : string :=
  ns +:+ "-" +:+ name +:+ "-rule-" +:+ pretty i.

(* ===================================================================== *)
(** ** pkg/translator/authPolicy.go                                      *)
(* ===================================================================== *)

Definition exactString (s : string) : ValueMatcher :=
  ValueMatcher_StringMatch (StringMatcher_Exact s).

(** The [sourcePrincipal] built for one entry of [allSources]. *)
Definition sourcePrincipal (source : string) : Principal :=
  Principal_Header
    {| hm_Name := "x-user-role";
       hm_Specifier := HeaderMatcher_StringMatch (StringMatcher_Exact source) |}.

(** [principalIDs] of one rule: nothing when [allSources] is empty,
    otherwise a single [OrIds] over all of them. *)
Definition principalIDs (rule : AuthRule) : list Principal :=
  let allSources := Identities (rule_Source rule) ++ ServiceAccounts (rule_Source rule) in
  if bool_decide (0 < length allSources)%nat
  then [Principal_OrIds (map sourcePrincipal allSources)]
  else [].

(** [toolsMatcher]: the only element when there is exactly one, an
    [OrMatch] otherwise. *)
Definition toolsMatcher (toolValueMatchers : list ValueMatcher) : ValueMatcher :=
  match toolValueMatchers with
  | [m] => m
  | _ => ValueMatcher_OrMatch toolValueMatchers
  end.

(** [permissions] of one rule. *)
Definition permissions (rule : AuthRule) : list Permission :=
  if bool_decide (0 < length (Tools rule))%nat
  then
    let toolValueMatchers := map exactString (Tools rule) in
    [ Permission_AndRules
        [ Permission_SourcedMetadata
            {| mm_Filter := mcpProxyFilterName;
               mm_Path := ["method"];
               mm_Value := exactString toolsCallMethod |};
          Permission_SourcedMetadata
            {| mm_Filter := mcpProxyFilterName;
               mm_Path := ["params"; "name"];
               mm_Value := toolsMatcher toolValueMatchers |} ] ]
  else [].

(** The policy stored for one rule. *)
Definition rulePolicy (rule : AuthRule) : Policy :=
  {| Principals := principalIDs rule; Permissions := permissions rule |}.

(** The [for i, rule := range authPolicy.Spec.Rules] loop, from index [i]
    on, writing [policies[policyName]] at each iteration. *)
Fixpoint translateRules (backend : Backend) (i : nat) (rules : list AuthRule)
    (policies : gmap string Policy) : gmap string Policy :=
  match rules with
  | [] => policies
  | rule :: rest =>
      let policyName := RBACPolicyName (Namespace backend) (Name backend) i in
      translateRules backend (S i) rest (<[policyName := rulePolicy rule]> policies)
  end.

Definition translateAuthPolicyToRBAC (authPolicy : AuthPolicy) (backend : Backend)
    : gmap string Policy :=
  translateRules backend 0 (Rules (ap_Spec authPolicy)) ∅.

Definition buildAllowMCPSessionClosePolicy : Policy :=
  {| Principals :=
       [ Principal_AndIds
           [ Principal_Header
               {| hm_Name := ":method";
                  hm_Specifier := HeaderMatcher_StringMatch (StringMatcher_Exact "DELETE") |};
             Principal_Header
               {| hm_Name := mcpSessionIDHeader;
                  hm_Specifier := HeaderMatcher_PresentMatch true |} ] ];
     Permissions := [ Permission_Any true ] |}.

Definition buildAllowAnyoneToInitializeAndListToolsPolicy : Policy :=
  {| Principals := [ Principal_Any true ];
     Permissions :=
       [ Permission_OrRules
           [ Permission_SourcedMetadata
               {| mm_Filter := mcpProxyFilterName;
                  mm_Path := ["method"];
                  mm_Value :=
                    ValueMatcher_OrMatch
                      [ exactString initializeMethod;
                        exactString initializedMethod;
                        exactString toolsListMethod ] |};
             Permission_Header
               {| hm_Name := ":method";
                  hm_Specifier := HeaderMatcher_StringMatch (StringMatcher_Exact "GET") |} ] ] |}.

(** Whether an AuthPolicy targets the backend (the test of the search loop). *)
Definition targetsBackend (backend : Backend) (authPolicy : AuthPolicy) : bool :=
  bool_decide (ref_Kind (TargetRef (ap_Spec authPolicy)) = "Backend")
  && bool_decide (ref_Name (TargetRef (ap_Spec authPolicy)) = Name backend).

(** Returns the first AuthPolicy of the backend's namespace that targets
    it, [None] (Go [nil]) when there is none. *)
Definition findAuthPolicyForBackend (backend : Backend) (authPolicyLister : AuthPolicyLister)
    : result (option AuthPolicy) :=
  match authPolicyLister (Namespace backend) with
  | Err err =>
      Err ("failed to list AuthPolicies in namespace " +:+ Namespace backend +:+ ": " +:+ err)
  | Ok allAuthPolicies => Ok (List.find (targetsBackend backend) allAuthPolicies)
  end.

Definition rbacActionFromAuthPolicy (authPolicy : option AuthPolicy) : RBAC_Action :=
  let defaultAction := RBAC_ALLOW in
  match authPolicy with
  | None => defaultAction
  | Some authPolicy =>
      if bool_decide (spec_Action (ap_Spec authPolicy) = ActionAllow)
      then RBAC_ALLOW
      else defaultAction
  end.

Definition RBAC_Action_eqb (a b : RBAC_Action) : bool :=
  match a, b with
  | RBAC_ALLOW, RBAC_ALLOW | RBAC_DENY, RBAC_DENY | RBAC_LOG, RBAC_LOG => true
  | _, _ => false
  end.

Definition rbacConfigFromAuthPolicy (authPolicyLister : AuthPolicyLister) (backend : Backend)
    : result RBAC :=
  match findAuthPolicyForBackend backend authPolicyLister with
  | Err err => Err err
  | Ok authPolicy =>
      let rbacPolicies :=
        match authPolicy with
        | Some ap => translateAuthPolicyToRBAC ap backend
        | None => ∅
        end in
      let action := rbacActionFromAuthPolicy authPolicy in
      let rbacPolicies :=
        if RBAC_Action_eqb action RBAC_ALLOW
        then
          <[allowAnyoneToInitializeAndListToolsPolicyName :=
              buildAllowAnyoneToInitializeAndListToolsPolicy]>
            (<[allowMCPSessionClosePolicyName := buildAllowMCPSessionClosePolicy]> rbacPolicies)
        else rbacPolicies in
      Ok {| Action := action; Policies := rbacPolicies |}
  end.

(* ===================================================================== *)
(** ** How the proxy evaluates the compiled configuration

    The translator only builds configuration; what a matcher accepts is
    fixed by Envoy.  The evaluation below follows Envoy's documented
    semantics for the message shapes the translator produces: a header
    matcher looks at one request header (the HTTP method is the
    pseudo-header [":method"]), a metadata matcher looks up a path under
    a filter's dynamic metadata, [and_ids]/[and_rules] need all members,
    [or_ids]/[or_rules]/[or_match] need one, and a policy applies when
    one of its permissions and one of its principals match. *)
(* ===================================================================== *)

(** A value of the dynamic metadata (a protobuf [Value] leaf). *)
Inductive MetaValue : Type :=
| NullValue
| NumberValue (n : Z)
| StringValue (s : string)
| BoolValue (b : bool).

Record Request : Type := {
  headers : gmap string string;
  dynamic_metadata : string -> list string -> option MetaValue
}.

Definition matchString (sm : StringMatcher) (s : string) : bool :=
  match sm with
  | StringMatcher_Exact exact => bool_decide (s = exact)
  end.

Fixpoint matchValue (m : ValueMatcher) (v : MetaValue) : bool :=
  match m with
  | ValueMatcher_StringMatch sm =>
      match v with
      | StringValue s => matchString sm s
      | _ => false
      end
  | ValueMatcher_OrMatch ms => existsb (fun m' => matchValue m' v) ms
  end.

Definition matchHeader (hm : HeaderMatcher) (req : Request) : bool :=
  match headers req !! hm_Name hm, hm_Specifier hm with
  | Some v, HeaderMatcher_StringMatch sm => matchString sm v
  | Some _, HeaderMatcher_PresentMatch present => present
  | None, HeaderMatcher_StringMatch _ => false
  | None, HeaderMatcher_PresentMatch present => negb present
  end.

Definition matchMetadata (mm : MetadataMatcher) (req : Request) : bool :=
  match dynamic_metadata req (mm_Filter mm) (mm_Path mm) with
  | Some v => matchValue (mm_Value mm) v
  | None => false
  end.

Fixpoint matchPrincipal (p : Principal) (req : Request) : bool :=
  match p with
  | Principal_AndIds ids => forallb (fun q => matchPrincipal q req) ids
  | Principal_OrIds ids => existsb (fun q => matchPrincipal q req) ids
  | Principal_Any any => any
  | Principal_Header hm => matchHeader hm req
  end.

Fixpoint matchPermission (p : Permission) (req : Request) : bool :=
  match p with
  | Permission_AndRules rules => forallb (fun q => matchPermission q req) rules
  | Permission_OrRules rules => existsb (fun q => matchPermission q req) rules
  | Permission_Any any => any
  | Permission_Header hm => matchHeader hm req
  | Permission_SourcedMetadata mm => matchMetadata mm req
  end.

Definition matchPrincipals (pol : Policy) (req : Request) : bool :=
  existsb (fun p => matchPrincipal p req) (Principals pol).

Definition matchPermissions (pol : Policy) (req : Request) : bool :=
  existsb (fun p => matchPermission p req) (Permissions pol).

Definition matchPolicy (pol : Policy) (req : Request) : bool :=
  matchPermissions pol req && matchPrincipals pol req.

(** The request attributes the compiled policies look at. *)
Definition httpMethod (req : Request) : option string := headers req !! ":method".
Definition identity (req : Request) : option string := headers req !! "x-user-role".
Definition mcpMethod (req : Request) : option MetaValue :=
  dynamic_metadata req mcpProxyFilterName ["method"].
Definition mcpToolName (req : Request) : option MetaValue :=
  dynamic_metadata req mcpProxyFilterName ["params"; "name"].

(* ===================================================================== *)
(** ** pkg/translator: Backend to cluster                                *)
(* ===================================================================== *)

(** [clusterv3.Cluster_DiscoveryType]. *)
Inductive Cluster_DiscoveryType : Type :=
| Cluster_STATIC
| Cluster_STRICT_DNS
| Cluster_LOGICAL_DNS
| Cluster_EDS
| Cluster_ORIGINAL_DST.

(** [durationpb.Duration]. *)
Record Duration : Type := {
  Seconds : Z;
  Nanos : Z
}.

(** [tlsv3.UpstreamTlsContext]: only [Sni] is set. *)
Record UpstreamTlsContext : Type := {
  Sni : string
}.

(** [anypb.Any]: a type URL and the serialized message. *)
Record Any : Type := {
  TypeUrl : string;
  Value : string
}.

(** [corev3.TransportSocket] with its [TypedConfig]. *)
Record TransportSocket : Type := {
  ts_Name : string;
  TypedConfig : Any
}.

(** [defaultConnectTimeout = 5 * time.Second] through [durationpb.New]. *)
Definition defaultConnectTimeout : Duration := {| Seconds := 5; Nanos := 0 |}.

(** The Go conversion [uint32(x)]. *)
Definition uint32 (x : Z) : Z := x mod 2 ^ 32.

(** [fmt.Sprintf("%s.%s.svc.cluster.local", service, ns)]. *)
Definition serviceFQDN (service ns : string) : string :=
  service +:+ "." +:+ ns +:+ ".svc.cluster.local".

Section Clusters.

(** [createClusterLoadAssignment(clusterName, address, port)] is a helper
    of the package defined in another file; the load assignment it
    returns is taken as given. *)
Variable ClusterLoadAssignment : Type.
Variable createClusterLoadAssignment : string -> string -> Z -> ClusterLoadAssignment.

(** [anypb.New] belongs to the protobuf library: it packs a message or
    reports a serialization error. *)
Variable anypb_New : UpstreamTlsContext -> result Any.

(** [clusterv3.Cluster], the fields the translator sets; unset message
    fields are [None]. *)
Record Cluster : Type := {
  cluster_Name : string;
  ConnectTimeout : Duration;
  ClusterDiscoveryType : option Cluster_DiscoveryType;
  LoadAssignment : option ClusterLoadAssignment;
  cluster_TransportSocket : option TransportSocket
}.

Definition convertBackendToCluster (backend : Backend) : result Cluster :=
  let clusterName := ClusterName (Namespace backend) (Name backend) in
  if bool_decide (ServiceName backend <> "")
  then
    Ok {| cluster_Name := clusterName;
          ConnectTimeout := defaultConnectTimeout;
          ClusterDiscoveryType := Some Cluster_STRICT_DNS;
          LoadAssignment :=
            Some (createClusterLoadAssignment clusterName
                    (serviceFQDN (ServiceName backend) (Namespace backend))
                    (uint32 (Port backend)));
          cluster_TransportSocket := None |}
  else
    let tlsContext := {| Sni := Hostname backend |} in
    match anypb_New tlsContext with
    | Err err => Err err
    | Ok any =>
        Ok {| cluster_Name := clusterName;
              ConnectTimeout := defaultConnectTimeout;
              ClusterDiscoveryType := Some Cluster_LOGICAL_DNS;
              LoadAssignment :=
                Some (createClusterLoadAssignment clusterName
                        (Hostname backend) (uint32 (Port backend)));
              cluster_TransportSocket :=
                Some {| ts_Name := "envoy.transport_sockets.tls"; TypedConfig := any |} |}
    end.

Fixpoint buildClustersFromBackends (backends : list Backend) : result (list Cluster) :=
  match backends with
  | [] => Ok []
  | backend :: rest =>
      match convertBackendToCluster backend with
      | Err err => Err err
      | Ok cluster =>
          match buildClustersFromBackends rest with
          | Err err => Err err
          | Ok clusters => Ok (cluster :: clusters)
          end
      end
  end.

End Clusters.

Arguments Build_Cluster {ClusterLoadAssignment} _ _ _ _ _.
Arguments cluster_Name {ClusterLoadAssignment} c.
Arguments ConnectTimeout {ClusterLoadAssignment} c.
Arguments ClusterDiscoveryType {ClusterLoadAssignment} c.
Arguments LoadAssignment {ClusterLoadAssignment} c.
Arguments cluster_TransportSocket {ClusterLoadAssignment} c.
Arguments convertBackendToCluster {ClusterLoadAssignment}
  createClusterLoadAssignment anypb_New backend.
Arguments buildClustersFromBackends {ClusterLoadAssignment}
  createClusterLoadAssignment anypb_New backends.

(* ===================================================================== *)
(** ** pkg/xds: the distribution server                                  *)
(* ===================================================================== *)

(** The wrap-around of [atomic.Uint64]. *)
Definition uint64 (x : Z) : Z := x mod 2 ^ 64.

Section XDS.

(** The go-control-plane snapshot cache is a collaborator: the resource
    sets, the snapshots, the cache and both cache operations are taken as
    given.  [NewSnapshot] validates a resource set; [SetSnapshot] updates
    the cache and may report an error. *)
Variables Resources Snapshot SnapshotCache : Type.
Variable NewSnapshot : string -> Resources -> result Snapshot.
Variable SetSnapshot : SnapshotCache -> string -> Snapshot -> SnapshotCache * option string.

(** [Server]: the cache and the process-wide version counter. *)
Record Server : Type := {
  cache : SnapshotCache;
  version : Z
}.

(** [s.version.Add(1)]. *)
Definition version_Add (s : Server) (delta : Z) : Server :=
  {| cache := cache s; version := uint64 (version s + delta) |}.

(** [s.version.Load()]. *)
Definition version_Load (s : Server) : Z := version s.

(** One call of [UpdateXDSServer] running alone: the server afterwards and
    the error returned ([None] for [nil]). *)
Definition UpdateXDSServer (s : Server) (nodeid : string) (resources : Resources)
    : Server * option string :=
  let s := version_Add s 1 in
  let v := version_Load s in
  match NewSnapshot (pretty v) resources with
  | Err err => (s, Some ("failed to create new snapshot cache: " +:+ err))
  | Ok snapshot =>
      match SetSnapshot (cache s) nodeid snapshot with
      | (cache', Some err) =>
          ({| cache := cache'; version := version s |},
           Some ("failed to update resource snapshot in management server: " +:+ err))
      | (cache', None) =>
          ({| cache := cache'; version := version s |}, None)
      end
  end.

(** *** Calls running concurrently

    Workers call [UpdateXDSServer] from several goroutines.  Each call is
    a sequence of four atomic steps on the shared server: the [Add], the
    [Load], the snapshot creation and the cache update. *)
Inductive ProgramPoint : Type :=
| AtAdd
| AtLoad
| AtNewSnapshot (version : Z)
| AtSetSnapshot (version : Z) (snapshot : Snapshot)
| Returned (err : option string).

Record Call : Type := {
  call_nodeid : string;
  call_resources : Resources;
  call_at : ProgramPoint
}.

Definition at_point (c : Call) (p : ProgramPoint) : Call :=
  {| call_nodeid := call_nodeid c; call_resources := call_resources c; call_at := p |}.

Definition newCall (nodeid : string) (resources : Resources) : Call :=
  {| call_nodeid := nodeid; call_resources := resources; call_at := AtAdd |}.

(** The next atomic step of one call. *)
Definition stepCall (s : Server) (c : Call) : Server * Call :=
  match call_at c with
  | AtAdd => (version_Add s 1, at_point c AtLoad)
  | AtLoad => (s, at_point c (AtNewSnapshot (version_Load s)))
  | AtNewSnapshot v =>
      match NewSnapshot (pretty v) (call_resources c) with
      | Err err =>
          (s, at_point c (Returned (Some ("failed to create new snapshot cache: " +:+ err))))
      | Ok snapshot => (s, at_point c (AtSetSnapshot v snapshot))
      end
  | AtSetSnapshot v snapshot =>
      match SetSnapshot (cache s) (call_nodeid c) snapshot with
      | (cache', Some err) =>
          ({| cache := cache'; version := version s |},
           at_point c
             (Returned (Some ("failed to update resource snapshot in management server: "
                              +:+ err))))
      | (cache', None) =>
          ({| cache := cache'; version := version s |}, at_point c (Returned None))
      end
  | Returned _ => (s, c)
  end.

(** The server together with the calls in flight. *)
Record System : Type := {
  sys_server : Server;
  sys_calls : list Call
}.

(** The scheduler lets call number [i] take its next step. *)
Definition step (sys : System) (i : nat) : System :=
  match sys_calls sys !! i with
  | Some c =>
      let '(s', c') := stepCall (sys_server sys) c in
      {| sys_server := s'; sys_calls := <[i := c']> (sys_calls sys) |}
  | None => sys
  end.

Definition run (schedule : list nat) (sys : System) : System :=
  fold_left step schedule sys.

(** The version a call has read, once it is past its [Load]. *)
Definition call_version (c : Call) : option Z :=
  match call_at c with
  | AtNewSnapshot v | AtSetSnapshot v _ => Some v
  | _ => None
  end.

End XDS.

Arguments Build_Server {SnapshotCache} cache version.
Arguments cache {SnapshotCache} s.
Arguments version {SnapshotCache} s.
Arguments version_Add {SnapshotCache} s delta.
Arguments version_Load {SnapshotCache} s.
Arguments UpdateXDSServer {Resources Snapshot SnapshotCache} NewSnapshot SetSnapshot
  s nodeid resources.
Arguments AtAdd {Snapshot}.
Arguments AtLoad {Snapshot}.
Arguments AtNewSnapshot {Snapshot} version.
Arguments AtSetSnapshot {Snapshot} version snapshot.
Arguments Returned {Snapshot} err.
Arguments Build_Call {Resources Snapshot} call_nodeid call_resources call_at.
Arguments call_nodeid {Resources Snapshot} c.
Arguments call_resources {Resources Snapshot} c.
Arguments call_at {Resources Snapshot} c.
Arguments at_point {Resources Snapshot} c p.
Arguments newCall {Resources Snapshot} nodeid resources.
Arguments stepCall {Resources Snapshot SnapshotCache} NewSnapshot SetSnapshot s c.
Arguments Build_System {Resources Snapshot SnapshotCache} sys_server sys_calls.
Arguments sys_server {Resources Snapshot SnapshotCache} s.
Arguments sys_calls {Resources Snapshot SnapshotCache} s.
Arguments step {Resources Snapshot SnapshotCache} NewSnapshot SetSnapshot sys i.
Arguments run {Resources Snapshot SnapshotCache} NewSnapshot SetSnapshot schedule sys.
Arguments call_version {Resources Snapshot} c.

(* ===================================================================== *)
(** ** Statement vocabulary and sample inputs                            *)
(* ===================================================================== *)

(** An AuthPolicy targets a backend when its target reference names it. *)
Definition targets (backend : Backend) (authPolicy : AuthPolicy) : Prop :=
  ref_Kind (TargetRef (ap_Spec authPolicy)) = "Backend"
  /\ ref_Name (TargetRef (ap_Spec authPolicy)) = Name backend.

(** The principals of [pol] are exactly one OR'd set of exact matches of
    the caller identity header against [sources], in order. *)
Definition flatOrOfExactMatches (sources : list string) (pol : Policy) : Prop :=
  Principals pol =
    [ Principal_OrIds
        (map (fun source =>
                Principal_Header
                  {| hm_Name := "x-user-role";
                     hm_Specifier :=
                       HeaderMatcher_StringMatch (StringMatcher_Exact source) |})
             sources) ].

(** The permission compiled for an allowed-tool list. *)
Definition toolsCallPermission (tools : list string) : Permission :=
  Permission_AndRules
    [ Permission_SourcedMetadata
        {| mm_Filter := "mcp_proxy";
           mm_Path := ["method"];
           mm_Value := ValueMatcher_StringMatch (StringMatcher_Exact "tools/call") |};
      Permission_SourcedMetadata
        {| mm_Filter := "mcp_proxy";
           mm_Path := ["params"; "name"];
           mm_Value :=
             match tools with
             | [tool] => ValueMatcher_StringMatch (StringMatcher_Exact tool)
             | _ =>
                 ValueMatcher_OrMatch
                   (map (fun tool => ValueMatcher_StringMatch (StringMatcher_Exact tool)) tools)
             end |} ].

Module Sample.

Definition backend : Backend :=
  {| Namespace := "ns"; Name := "svc"; ServiceName := "svc"; Hostname := ""; Port := 8080 |}.

Definition externalBackend : Backend :=
  {| Namespace := "ns"; Name := "ext"; ServiceName := "";
     Hostname := "api.example.com"; Port := 443 |}.

Definition policyFor (target : string) (action : AuthPolicyAction) (rules : list AuthRule)
    : AuthPolicy :=
  {| ap_Namespace := "ns"; ap_Name := "policy";
     ap_Spec := {| TargetRef := {| ref_Group := "agentic.networking.x-k8s.io";
                                   ref_Kind := "Backend"; ref_Name := target |};
                   Rules := rules;
                   spec_Action := action |} |}.

(** A lister whose namespace holds one policy, for another backend. *)
Definition otherLister : AuthPolicyLister :=
  fun _ => Ok [policyFor "other" "ALLOW" []].

Definition agent : Source :=
  {| Identities := ["spiffe://td/ns/default/sa/a"]; ServiceAccounts := ["default/b"] |}.

Definition nobody : Source := {| Identities := []; ServiceAccounts := [] |}.

Definition toolsRule : AuthRule :=
  {| rule_Source := agent; Tools := ["add"; "getTinyImage"] |}.

Definition noToolsRule : AuthRule := {| rule_Source := agent; Tools := [] |}.

Definition noSourceRule : AuthRule := {| rule_Source := nobody; Tools := ["add"] |}.

(** A [tools/call] POST from [caller] naming [tool], as the MCP filter
    publishes it. *)
Definition toolsCall (caller tool : string) : Request :=
  {| headers := {[ ":method" := "POST"; "x-user-role" := caller ]};
     dynamic_metadata := fun filter path =>
       if bool_decide (filter = "mcp_proxy") then
         if bool_decide (path = ["method"]) then Some (StringValue "tools/call")
         else if bool_decide (path = ["params"; "name"]) then Some (StringValue tool)
         else None
       else None |}.

(** A load assignment with one endpoint: cluster name, address, port. *)
Definition createClusterLoadAssignment (clusterName address : string) (port : Z)
    : string * string * Z :=
  (clusterName, address, port).

(** A packer that accepts every TLS context. *)
Definition anypb_New (tlsContext : UpstreamTlsContext) : result Any :=
  Ok {| TypeUrl :=
          "type.googleapis.com/envoy.extensions.transport_sockets.tls.v3.UpstreamTlsContext";
        Value := Sni tlsContext |}.

(** A snapshot cache kept as a map from node id to (version, resources);
    a resource set is valid when it lists no unknown resource type. *)
Definition NewSnapshot (version : string) (resources : list string)
    : result (string * list string) :=
  if bool_decide ("unknown" ∈ resources)
  then Err "unknown resource type: unknown"
  else Ok (version, resources).

Definition SetSnapshot (cache : gmap string (string * list string)) (nodeid : string)
    (snapshot : string * list string)
    : gmap string (string * list string) * option string :=
  (<[nodeid := snapshot]> cache, None).

Definition freshServer : Server (gmap string (string * list string)) :=
  {| cache := ∅; version := 0 |}.

Definition update := UpdateXDSServer NewSnapshot SetSnapshot.

(** Two workers publishing for two proxies at the same time. *)
Definition twoCalls : System (list string) (string * list string)
                             (gmap string (string * list string)) :=
  {| sys_server := freshServer;
     sys_calls := [newCall "node-a" ["listener"]; newCall "node-b" ["cluster"]] |}.

(** The schedule in which both calls add before either loads. *)
Definition racingSchedule : list nat := [0; 1; 0; 1; 0; 1; 0; 1]%nat.

End Sample.

(* ===================================================================== *)
(** ** The RBAC filter's decision

    Envoy's RBAC filter with action ALLOW lets a request through when at
    least one policy matches it, with action DENY when none does; LOG
    never blocks. *)
(* ===================================================================== *)

Definition anyPolicyMatches (policies : gmap string Policy) (req : Request) : bool :=
  existsb (fun entry => matchPolicy entry.2 req) (map_to_list policies).

Definition rbacAllows (cfg : RBAC) (req : Request) : bool :=
  match Action cfg with
  | RBAC_ALLOW => anyPolicyMatches (Policies cfg) req
  | RBAC_DENY => negb (anyPolicyMatches (Policies cfg) req)
  | RBAC_LOG => true
  end.

(** The last character of a string, used to tell generated names from the
    fixed ones. *)
Fixpoint lastChar (s : string) : option Ascii.ascii :=
  match s with
  | EmptyString => None
  | String c EmptyString => Some c
  | String _ rest => lastChar rest
  end.

Definition isDigit (c : Ascii.ascii) : bool :=
  (48 <=? Ascii.nat_of_ascii c)%nat && (Ascii.nat_of_ascii c <=? 57)%nat.

(* ===================================================================== *)
(** ** pkg/translator: resolving a backend reference                     *)
(* ===================================================================== *)

(** [gatewayv1.BackendRef]: the fields of its [BackendObjectReference];
    optional fields are Go pointers. *)
Record BackendRef : Type := {
  bref_Group : option string;
  bref_Kind : option string;
  bref_Name : string;
  bref_Namespace : option string
}.

(** [ControllerError]: a route-status reason and a message. *)
Record ControllerError : Type := {
  Reason : string;
  Message : string
}.

(** [gatewayv1beta1.ReferenceGrantFrom] and [ReferenceGrantTo]. *)
Record ReferenceGrantFrom : Type := {
  from_Group : string;
  from_Kind : string;
  from_Namespace : string
}.

Record ReferenceGrantTo : Type := {
  to_Group : string;
  to_Kind : string;
  to_Name : option string
}.

(** Constants of the Gateway API. *)
Definition GroupName : string := "gateway.networking.k8s.io".
Definition RouteReasonInvalidKind : string := "InvalidKind".
Definition RouteReasonRefNotPermitted : string := "RefNotPermitted".
Definition RouteReasonBackendNotFound : string := "BackendNotFound".

Section FetchBackend.

(** The listers are the informer caches: [Backends(ns).Get(name)] and
    [Services(ns).Get(name)].  [isCrossNamespaceRefAllowed] is a helper of
    the package defined in another file. *)
Variables Service ReferenceGrantLister : Type.
Variable isCrossNamespaceRefAllowed :
  ReferenceGrantFrom -> ReferenceGrantTo -> string -> ReferenceGrantLister -> bool.

Definition BackendLister := string -> string -> result Backend.
Definition ServiceLister := string -> string -> result Service.

(** Returns the backend ([inl]) or the error ([inr]). *)
Definition fetchBackend (namespace : string) (backendRef : BackendRef)
    (backendLister : BackendLister) (serviceLister : ServiceLister)
    (referenceGrantLister : ReferenceGrantLister) : Backend + ControllerError :=
  let invalidKind :=
    match bref_Kind backendRef with
    | Some kind => if bool_decide (kind <> "Backend") then Some kind else None
    | None => None
    end in
  match invalidKind with
  | Some kind =>
      inr {| Reason := RouteReasonInvalidKind;
             Message := "unsupported backend kind: " +:+ kind |}
  | None =>
      let ns :=
        match bref_Namespace backendRef with
        | Some refNamespace => refNamespace
        | None => namespace
        end in
      let from := {| from_Group := GroupName; from_Kind := "HTTPRoute";
                     from_Namespace := namespace |} in
      let to := {| to_Group := ""; to_Kind := "Service";
                   to_Name := Some (bref_Name backendRef) |} in
      if bool_decide (ns <> namespace)
         && negb (isCrossNamespaceRefAllowed from to ns referenceGrantLister)
      then inr {| Reason := RouteReasonRefNotPermitted; Message := "permission error" |}
      else
        match backendLister ns (bref_Name backendRef) with
        | Err err =>
            inr {| Reason := RouteReasonBackendNotFound;
                   Message := "failed to get Backend " +:+ ns +:+ "/"
                                +:+ bref_Name backendRef +:+ ": " +:+ err |}
        | Ok backend =>
            let svc := ServiceName backend in
            if bool_decide (svc <> "") then
              match serviceLister ns svc with
              | Err err =>
                  inr {| Reason := RouteReasonBackendNotFound;
                         Message := "failed to get Backend service " +:+ ns +:+ "/"
                                      +:+ svc +:+ ": " +:+ err |}
              | Ok _ => inl backend
              end
            else inl backend
        end
  end.

End FetchBackend.

Arguments ServiceLister Service : clear implicits.
Arguments fetchBackend {Service ReferenceGrantLister} isCrossNamespaceRefAllowed
  namespace backendRef backendLister serviceLister referenceGrantLister.

(** The namespace a reference resolves in. *)
Definition refNamespace (namespace : string) (backendRef : BackendRef) : string :=
  default namespace (bref_Namespace backendRef).

(** The grant consulted for a reference, and the two admission tests. *)
Definition grantFor {ReferenceGrantLister : Type}
    (isCrossNamespaceRefAllowed :
       ReferenceGrantFrom -> ReferenceGrantTo -> string -> ReferenceGrantLister -> bool)
    (namespace : string) (backendRef : BackendRef)
    (referenceGrantLister : ReferenceGrantLister) : bool :=
  isCrossNamespaceRefAllowed
    {| from_Group := "gateway.networking.k8s.io"; from_Kind := "HTTPRoute";
       from_Namespace := namespace |}
    {| to_Group := ""; to_Kind := "Service"; to_Name := Some (bref_Name backendRef) |}
    (refNamespace namespace backendRef) referenceGrantLister.

Definition kindAccepted (backendRef : BackendRef) : Prop :=
  bref_Kind backendRef = None \/ bref_Kind backendRef = Some "Backend".

Definition permitted {ReferenceGrantLister : Type}
    (isCrossNamespaceRefAllowed :
       ReferenceGrantFrom -> ReferenceGrantTo -> string -> ReferenceGrantLister -> bool)
    (namespace : string) (backendRef : BackendRef)
    (referenceGrantLister : ReferenceGrantLister) : Prop :=
  refNamespace namespace backendRef = namespace
  \/ grantFor isCrossNamespaceRefAllowed namespace backendRef referenceGrantLister = true.

(* ===================================================================== *)
(** ** pkg/xds: more of the server                                       *)
(* ===================================================================== *)

(** Whether a call is past its [Add], and how many calls are. *)
Definition hasAdded {Resources Snapshot : Type} (c : Call Resources Snapshot) : bool :=
  match call_at c with
  | AtAdd => false
  | _ => true
  end.

Definition countAdded {Resources Snapshot : Type} (calls : list (Call Resources Snapshot))
    : nat :=
  length (List.filter hasAdded calls).

(** What every schedule keeps true of calls that started together at
    counter [v0]: the counter counts the calls past their [Add], and each
    version read lies between the start and the counter. *)
Definition counted {Resources Snapshot SnapshotCache : Type} (v0 : Z) (n : nat)
    (sys : System Resources Snapshot SnapshotCache) : Prop :=
  length (sys_calls sys) = n
  /\ version (sys_server sys) = (v0 + Z.of_nat (countAdded (sys_calls sys)))%Z
  /\ forall c v, c ∈ sys_calls sys -> call_version c = Some v ->
       (v0 < v <= version (sys_server sys))%Z.

(** The [less] function given to [sort.Slice] in [getControlPlaneAddress],
    on the two interface names; [<] on Go strings compares bytes. *)
Definition interfaceLess (nameI nameJ : string) : bool :=
  if bool_decide (nameI = "docker0") then true
  else if bool_decide (nameJ = "docker0") then false
  else if bool_decide (nameI = "eth0") then bool_decide (nameJ <> "docker0")
  else if bool_decide (nameJ = "eth0") then false
  else String.ltb nameI nameJ.

(** What [sort.Slice] guarantees of its result for a proper [less]: no
    element is less than one placed before it. *)
Definition sortedBy {A : Type} (less : A -> A -> bool) (l : list A) : Prop :=
  forall i j x y, (i < j)%nat -> l !! i = Some x -> l !! j = Some y -> less y x = false.

Section ControlPlaneAddress.

(** [net.IP] with the methods the selection uses, and [sort.Slice], come
    from the Go library. *)
Variable IP : Type.
Variable To4 : IP -> bool.
Variable IsLinkLocalUnicast : IP -> bool.
Variable IsLoopback : IP -> bool.
Variable IP_String : IP -> string.

(** A [net.Addr]: an [*net.IPNet] (of which only [IP] is read) or not. *)
Inductive Addr : Type :=
| Addr_IPNet (ip : IP)
| Addr_other.

(** A [net.Interface]: its name, the two flags tested, and the outcome
    of [Addrs()]. *)
Record Interface : Type := {
  if_Name : string;
  if_FlagUp : bool;
  if_FlagLoopback : bool;
  if_Addrs : result (list Addr)
}.

Variable sort_Slice : (Interface -> Interface -> bool) -> list Interface -> list Interface.

(** The test of the inner loop. *)
Definition suitable (addr : Addr) : option string :=
  match addr with
  | Addr_IPNet ip =>
      if To4 ip && negb (IsLinkLocalUnicast ip) && negb (IsLoopback ip)
      then Some (IP_String ip)
      else None
  | Addr_other => None
  end.

(** The inner loop: the first suitable address of one interface. *)
Fixpoint firstSuitable (addrs : list Addr) : option string :=
  match addrs with
  | [] => None
  | addr :: rest =>
      match suitable addr with
      | Some s => Some s
      | None => firstSuitable rest
      end
  end.

(** What one iteration of the outer loop finds on an interface. *)
Definition addressOf (iface : Interface) : option string :=
  if negb (if_FlagUp iface) || if_FlagLoopback iface then None
  else
    match if_Addrs iface with
    | Err _ => None
    | Ok addrs => firstSuitable addrs
    end.

(** The outer loop over the sorted interfaces. *)
Fixpoint scanInterfaces (interfaces : list Interface) : result string :=
  match interfaces with
  | [] =>
      Err "no suitable global unicast IPv4 address found on any active non-loopback interface"
  | iface :: rest =>
      match addressOf iface with
      | Some s => Ok s
      | None => scanInterfaces rest
      end
  end.

(** [getControlPlaneAddress], given the outcome of [net.Interfaces()]. *)
Definition getControlPlaneAddress (net_Interfaces : result (list Interface))
    : result string :=
  match net_Interfaces with
  | Err err => Err err
  | Ok interfaces =>
      scanInterfaces
        (sort_Slice (fun i j => interfaceLess (if_Name i) (if_Name j)) interfaces)
  end.

End ControlPlaneAddress.

Arguments Addr_IPNet {IP} ip.
Arguments Addr_other {IP}.
Arguments Build_Interface {IP} if_Name if_FlagUp if_FlagLoopback if_Addrs.
Arguments if_Name {IP} i.
Arguments if_FlagUp {IP} i.
Arguments if_FlagLoopback {IP} i.
Arguments if_Addrs {IP} i.
Arguments suitable {IP} To4 IsLinkLocalUnicast IsLoopback IP_String addr.
Arguments firstSuitable {IP} To4 IsLinkLocalUnicast IsLoopback IP_String addrs.
Arguments addressOf {IP} To4 IsLinkLocalUnicast IsLoopback IP_String iface.
Arguments scanInterfaces {IP} To4 IsLinkLocalUnicast IsLoopback IP_String interfaces.
Arguments getControlPlaneAddress {IP} To4 IsLinkLocalUnicast IsLoopback IP_String
  sort_Slice net_Interfaces.

(* ===================================================================== *)
(** ** pkg/translator: the issuer of service-account tokens              *)
(* ===================================================================== *)

Section Issuer.

(** The REST configuration, its transport, the HTTP client and the JSON
    decoder are client-go and the Go library. [decodeIssuer] stands for
    decoding the body into a struct with the one field [issuer], which is
    empty when the document has none. *)
Variables Config Transport Body : Type.
Variable Host : Config -> string.
Variable TransportFor : Config -> result Transport.
Variable client_Get : Transport -> string -> result (Z * Body).
Variable decodeIssuer : Body -> result string.

Definition GetK8sIssuer (config : Config) : result string :=
  match TransportFor config with
  | Err err => Err ("failed to create transport from kubeconfig: " +:+ err)
  | Ok transport =>
      let wellKnownURL := Host config +:+ "/.well-known/openid-configuration" in
      match client_Get transport wellKnownURL with
      | Err err =>
          Err ("failed to get OIDC discovery endpoint " +:+ wellKnownURL +:+ ": " +:+ err)
      | Ok (StatusCode, body) =>
          if bool_decide (StatusCode <> 200%Z) then
            Err ("OIDC discovery endpoint " +:+ wellKnownURL +:+ " returned status "
                 +:+ pretty StatusCode)
          else
            match decodeIssuer body with
            | Err err => Err ("failed to decode OIDC discovery response: " +:+ err)
            | Ok issuer =>
                if bool_decide (issuer = "") then
                  Err ("issuer field not found in OIDC discovery response from "
                       +:+ wellKnownURL)
                else Ok issuer
            end
      end
  end.

End Issuer.

Arguments GetK8sIssuer {Config Transport Body} Host TransportFor client_Get decodeIssuer
  config.

(* ===================================================================== *)
(** ** More sample inputs                                                *)
(* ===================================================================== *)

Module Cases.

(** A namespace with a policy for another backend followed by two
    policies that both target [svc]. *)
Definition first : AuthPolicy := Sample.policyFor "svc" "ALLOW" [Sample.toolsRule].
Definition second : AuthPolicy := Sample.policyFor "svc" "ALLOW" [Sample.noToolsRule].

Definition crowdedLister : AuthPolicyLister :=
  fun _ => Ok [Sample.policyFor "other" "ALLOW" []; first; second].

(** An address with the answers of the [net.IP] methods written down. *)
Record IP : Type := {
  ip_To4 : bool;
  ip_IsLinkLocalUnicast : bool;
  ip_IsLoopback : bool;
  ip_String : string
}.

Definition v4 (s : string) : IP :=
  {| ip_To4 := true; ip_IsLinkLocalUnicast := false; ip_IsLoopback := false;
     ip_String := s |}.

Definition lo : Interface IP :=
  {| if_Name := "lo"; if_FlagUp := true; if_FlagLoopback := true;
     if_Addrs :=
       Ok [Addr_IPNet {| ip_To4 := true; ip_IsLinkLocalUnicast := false;
                         ip_IsLoopback := true; ip_String := "127.0.0.1" |}] |}.

Definition eth0 : Interface IP :=
  {| if_Name := "eth0"; if_FlagUp := true; if_FlagLoopback := false;
     if_Addrs :=
       Ok [Addr_IPNet {| ip_To4 := false; ip_IsLinkLocalUnicast := true;
                         ip_IsLoopback := false; ip_String := "fe80::1" |};
           Addr_IPNet (v4 "10.0.0.5")] |}.

Definition docker0 : Interface IP :=
  {| if_Name := "docker0"; if_FlagUp := true; if_FlagLoopback := false;
     if_Addrs := Ok [Addr_other; Addr_IPNet (v4 "172.17.0.1")] |}.

Definition downOnly : Interface IP :=
  {| if_Name := "wlan0"; if_FlagUp := false; if_FlagLoopback := false;
     if_Addrs := Ok [Addr_IPNet (v4 "192.168.1.7")] |}.

(** A sort by insertion, standing in for [sort.Slice]. *)
Fixpoint insertSorted {A : Type} (less : A -> A -> bool) (x : A) (l : list A) : list A :=
  match l with
  | [] => [x]
  | y :: rest => if less y x then y :: insertSorted less x rest else x :: l
  end.

Definition sort_Slice {A : Type} (less : A -> A -> bool) (l : list A) : list A :=
  fold_right (insertSorted less) [] l.

Definition address (interfaces : list (Interface IP)) : result string :=
  getControlPlaneAddress ip_To4 ip_IsLinkLocalUnicast ip_IsLoopback ip_String
    sort_Slice (Ok interfaces).

End Cases.

(* ===================================================================== *)
(** * Verification                                                       *)
(* ===================================================================== *)

(** ** Lemmas on the RBAC compiler and on matching *)

(** Closes [x ∈ [a; b; ...]] hypotheses over distinct string literals. *)
Ltac not_listed H :=
  repeat (apply elem_of_cons in H as [H|H]; [discriminate H|]);
  by apply elem_of_nil in H.

Lemma RBACPolicyName_inj ns name i j :
  RBACPolicyName ns name i = RBACPolicyName ns name j -> i = j.
Proof.
  unfold RBACPolicyName. intros H.
  do 4 apply String.app_inj in H.
  by apply (inj pretty) in H.
Qed.

(** Iterations from index [i] on leave the entries of earlier rules alone. *)
Lemma translateRules_lookup_earlier backend rules : forall i policies k,
  (k < i)%nat ->
  translateRules backend i rules policies
    !! RBACPolicyName (Namespace backend) (Name backend) k
  = policies !! RBACPolicyName (Namespace backend) (Name backend) k.
Proof.
  induction rules as [|rule rest IH]; intros i policies k Hk; simpl; [done|].
  rewrite IH by lia.
  apply lookup_insert_ne. intros Heq. apply RBACPolicyName_inj in Heq. lia.
Qed.

(** The entry written for the rule at offset [j] of the remaining rules. *)
Lemma translateRules_lookup backend rules : forall i policies j rule,
  rules !! j = Some rule ->
  translateRules backend i rules policies
    !! RBACPolicyName (Namespace backend) (Name backend) (i + j)
  = Some (rulePolicy rule).
Proof.
  induction rules as [|r rest IH]; intros i policies j rule Hj; [done|].
  destruct j as [|j]; simpl in *.
  - injection Hj as ->. rewrite Nat.add_0_r.
    rewrite translateRules_lookup_earlier by lia.
    apply lookup_insert_eq.
  - replace (i + S j)%nat with (S i + j)%nat by lia. by apply IH.
Qed.

Lemma translateAuthPolicyToRBAC_lookup authPolicy backend i rule :
  Rules (ap_Spec authPolicy) !! i = Some rule ->
  translateAuthPolicyToRBAC authPolicy backend
    !! RBACPolicyName (Namespace backend) (Name backend) i
  = Some (rulePolicy rule).
Proof. intros H. apply (translateRules_lookup backend _ 0 ∅ i rule H). Qed.

Lemma rbacActionFromAuthPolicy_allow authPolicy :
  rbacActionFromAuthPolicy authPolicy = RBAC_ALLOW.
Proof.
  destruct authPolicy as [ap|]; [|done].
  unfold rbacActionFromAuthPolicy. by case_bool_decide.
Qed.

Lemma find_none_not_targeted backend (l : list AuthPolicy) :
  (forall ap, ap ∈ l -> targetsBackend backend ap = false) ->
  List.find (targetsBackend backend) l = None.
Proof.
  induction l as [|a l IH]; intros H; [done|]. simpl.
  rewrite (H a) by constructor. apply IH. intros ap Hap. apply H. by constructor.
Qed.


Lemma targetsBackend_false backend ap :
  ~ targets backend ap -> targetsBackend backend ap = false.
Proof.
  unfold targets, targetsBackend. intros H.
  apply andb_false_iff.
  destruct (decide (ref_Kind (TargetRef (ap_Spec ap)) = "Backend")) as [Hk|Hk].
  - right. apply bool_decide_eq_false. tauto.
  - left. by apply bool_decide_eq_false.
Qed.

Lemma matchPrincipals_close req :
  matchPrincipals buildAllowMCPSessionClosePolicy req = true
  <-> httpMethod req = Some "DELETE" /\ is_Some (headers req !! "mcp-session-id").
Proof.
  unfold matchPrincipals, httpMethod. cbn. unfold matchHeader. cbn.
  unfold mcpSessionIDHeader.
  rewrite orb_false_r, andb_true_r, andb_true_iff.
  f_equiv.
  - destruct (headers req !! ":method") as [m|]; [|done].
    rewrite bool_decide_eq_true. split; congruence.
  - destruct (headers req !! "mcp-session-id") as [sid|]; cbn.
    + split; eauto.
    + split; [done | by intros [? ?]].
Qed.

Lemma matchPolicy_close req :
  matchPolicy buildAllowMCPSessionClosePolicy req
  = matchPrincipals buildAllowMCPSessionClosePolicy req.
Proof. reflexivity. Qed.

Lemma matchPolicy_anyone req :
  matchPolicy buildAllowAnyoneToInitializeAndListToolsPolicy req = true
  <-> (exists m, mcpMethod req = Some (StringValue m)
                 /\ m ∈ ["initialize"; "notifications/initialized"; "tools/list"])
      \/ httpMethod req = Some "GET".
Proof.
  unfold matchPolicy, matchPermissions, matchPrincipals, mcpMethod, httpMethod.
  cbn. unfold matchMetadata, matchHeader. cbn.
  rewrite !orb_false_r, andb_true_r, orb_true_iff.
  f_equiv.
  - destruct (dynamic_metadata req mcpProxyFilterName ["method"]) as [[| |s|]|]; cbn;
      try (split; [done | intros (m & Hm & _); done]).
    rewrite !orb_true_iff, !bool_decide_eq_true.
    unfold initializeMethod, initializedMethod, toolsListMethod.
    split.
    + intros H. exists s. split; [done|].
      rewrite !elem_of_cons, elem_of_nil. intuition congruence.
    + intros (m & [= <-] & Hm).
      rewrite !elem_of_cons, elem_of_nil in Hm. tauto.
  - destruct (headers req !! ":method") as [m|]; [|done].
    rewrite bool_decide_eq_true. split; congruence.
Qed.

Lemma translateRules_lookup_later backend rules : forall i policies k,
  (i + length rules <= k)%nat ->
  translateRules backend i rules policies
    !! RBACPolicyName (Namespace backend) (Name backend) k
  = policies !! RBACPolicyName (Namespace backend) (Name backend) k.
Proof.
  induction rules as [|rule rest IH]; intros i policies k Hk; simpl in *; [done|].
  rewrite IH by lia.
  apply lookup_insert_ne. intros Heq. apply RBACPolicyName_inj in Heq. lia.
Qed.

(** No rule at an index, no entry under that index's name. *)
Lemma translateAuthPolicyToRBAC_lookup_None authPolicy backend i :
  Rules (ap_Spec authPolicy) !! i = None ->
  translateAuthPolicyToRBAC authPolicy backend
    !! RBACPolicyName (Namespace backend) (Name backend) i
  = None.
Proof.
  intros H. apply lookup_ge_None in H.
  unfold translateAuthPolicyToRBAC.
  rewrite translateRules_lookup_later by (simpl; lia). apply lookup_empty.
Qed.

Lemma matchValue_exact s v :
  matchValue (ValueMatcher_StringMatch (StringMatcher_Exact s)) v = true
  <-> v = StringValue s.
Proof.
  destruct v as [| |s'|]; simpl; try (split; [done | discriminate]).
  rewrite bool_decide_eq_true. split; congruence.
Qed.

Lemma existsb_matchValue_exact tools v :
  existsb (fun m => matchValue m v) (map exactString tools) = true
  <-> exists tool, tool ∈ tools /\ v = StringValue tool.
Proof.
  induction tools as [|t tools IH]; cbn [map existsb].
  - split; [done | intros (tool & Hin & _); by apply elem_of_nil in Hin].
  - rewrite orb_true_iff, IH. unfold exactString at 1. rewrite matchValue_exact.
    split.
    + intros [->|(tool & Hin & ->)].
      * exists t. split; [left | done].
      * exists tool. split; [by right | done].
    + intros (tool & Hin & ->). apply elem_of_cons in Hin as [->|Hin]; eauto.
Qed.

Lemma matchValue_toolsMatcher tools v :
  matchValue (toolsMatcher (map exactString tools)) v = true
  <-> exists tool, tool ∈ tools /\ v = StringValue tool.
Proof.
  destruct tools as [|t [|t' tools]].
  - cbn. split; [done | intros (tool & Hin & _); by apply elem_of_nil in Hin].
  - cbn [map toolsMatcher]. unfold exactString. rewrite matchValue_exact. split.
    + intros ->. exists t. split; [left | done].
    + intros (tool & Hin & ->). by apply list_elem_of_singleton in Hin as ->.
  - apply (existsb_matchValue_exact (t :: t' :: tools)).
Qed.

Lemma toolsMatcher_map tools :
  match tools with
  | [tool] => ValueMatcher_StringMatch (StringMatcher_Exact tool)
  | _ => ValueMatcher_OrMatch
           (map (fun tool => ValueMatcher_StringMatch (StringMatcher_Exact tool)) tools)
  end = toolsMatcher (map exactString tools).
Proof. by destruct tools as [|t [|t' tools]]. Qed.

Lemma permissions_tools rule :
  Tools rule <> [] -> permissions rule = [toolsCallPermission (Tools rule)].
Proof.
  intros Hne. unfold permissions, toolsCallPermission.
  rewrite bool_decide_eq_true_2 by (destruct (Tools rule); [done | simpl; lia]).
  by destruct (Tools rule) as [|t [|t' tools]].
Qed.

Lemma matchPermission_toolsCall tools req :
  matchPermission (toolsCallPermission tools) req = true
  <-> mcpMethod req = Some (StringValue "tools/call")
      /\ exists tool, tool ∈ tools /\ mcpToolName req = Some (StringValue tool).
Proof.
  unfold mcpMethod, mcpToolName, mcpProxyFilterName.
  cbn [toolsCallPermission matchPermission forallb]. unfold matchMetadata.
  cbn [mm_Filter mm_Path mm_Value].
  rewrite andb_true_r, andb_true_iff. f_equiv.
  - destruct (dynamic_metadata req "mcp_proxy" ["method"]) as [v|]; [|done].
    rewrite matchValue_exact. split; congruence.
  - destruct (dynamic_metadata req "mcp_proxy" ["params"; "name"]) as [v|].
    + rewrite toolsMatcher_map.
      rewrite matchValue_toolsMatcher.
      split; intros (tool & Hin & Hv); exists tool; split; congruence.
    + split; [done | intros (tool & _ & ?); done].
Qed.

Lemma principalIDs_nonempty rule :
  Identities (rule_Source rule) ++ ServiceAccounts (rule_Source rule) <> [] ->
  principalIDs rule =
    [Principal_OrIds
       (map sourcePrincipal (Identities (rule_Source rule) ++ ServiceAccounts (rule_Source rule)))].
Proof.
  intros Hne. unfold principalIDs.
  rewrite bool_decide_eq_true_2; [done|].
  destruct (Identities (rule_Source rule) ++ ServiceAccounts (rule_Source rule));
    [done | simpl; lia].
Qed.

Lemma principalIDs_empty rule :
  Identities (rule_Source rule) = [] -> ServiceAccounts (rule_Source rule) = [] ->
  principalIDs rule = [].
Proof. intros Hi Hs. unfold principalIDs. by rewrite Hi, Hs. Qed.

Lemma matchPrincipal_source source req :
  matchPrincipal (sourcePrincipal source) req = true <-> identity req = Some source.
Proof.
  unfold identity. cbn. unfold matchHeader. cbn.
  destruct (headers req !! "x-user-role") as [v|]; [|done].
  rewrite bool_decide_eq_true. split; congruence.
Qed.

Lemma existsb_sourcePrincipal sources req :
  existsb (fun p => matchPrincipal p req) (map sourcePrincipal sources) = true
  <-> exists v, identity req = Some v /\ v ∈ sources.
Proof.
  induction sources as [|s sources IH]; cbn [map existsb].
  - split; [done | intros (v & _ & Hin); by apply elem_of_nil in Hin].
  - rewrite orb_true_iff, IH, matchPrincipal_source. split.
    + intros [H|(v & H & Hin)]; [exists s | exists v]; (split; [done|]); [left | by right].
    + intros (v & H & Hin). apply elem_of_cons in Hin as [->|Hin]; eauto.
Qed.


(* ===================================================================== *)
(** ** The RBAC compiler: action, baked-in policies, per-rule policies   *)
(* ===================================================================== *)

(** C1. A backend that no AuthPolicy of its namespace targets gets the
    action ALLOW and a policy map holding the two baked-in policies; and
    an AuthPolicy whose declared action is anything but "ALLOW" (unset
    included) resolves to ALLOW as well. *)
Theorem fail_open_action :
  (forall (lister : AuthPolicyLister) (backend : Backend) (all : list AuthPolicy),
      lister (Namespace backend) = Ok all ->
      (forall ap, ap ∈ all -> ~ targets backend ap) ->
      exists cfg,
        rbacConfigFromAuthPolicy lister backend = Ok cfg
        /\ Action cfg = RBAC_ALLOW
        /\ Policies cfg !! "allow-mcp-session-close" = Some buildAllowMCPSessionClosePolicy
        /\ Policies cfg !! "allow-anyone-to-initialize-and-list-tools"
           = Some buildAllowAnyoneToInitializeAndListToolsPolicy)
  /\ (forall authPolicy : AuthPolicy,
        spec_Action (ap_Spec authPolicy) <> "ALLOW" ->
        rbacActionFromAuthPolicy (Some authPolicy) = RBAC_ALLOW).
Proof.
  split.
  - intros lister backend all Hlist Hnone.
    unfold rbacConfigFromAuthPolicy, findAuthPolicyForBackend. rewrite Hlist.
    rewrite find_none_not_targeted
      by (intros ap Hap; apply targetsBackend_false; by apply Hnone).
    eexists. split; [reflexivity|]. simpl.
    split; [done|]. split.
    + by rewrite lookup_insert_ne, lookup_insert_eq.
    + by rewrite lookup_insert_eq.
  - intros authPolicy Hne. unfold rbacActionFromAuthPolicy.
    by case_bool_decide.
Qed.

(** A namespace whose only policy targets another backend; actions "DENY"
    and "" on a policy for the backend. *)
Lemma fail_open_action_witness :
  (exists cfg,
      rbacConfigFromAuthPolicy Sample.otherLister Sample.backend = Ok cfg
      /\ Action cfg = RBAC_ALLOW
      /\ Policies cfg !! "allow-mcp-session-close" = Some buildAllowMCPSessionClosePolicy
      /\ Policies cfg !! "allow-anyone-to-initialize-and-list-tools"
         = Some buildAllowAnyoneToInitializeAndListToolsPolicy)
  /\ rbacActionFromAuthPolicy (Some (Sample.policyFor "svc" "DENY" [])) = RBAC_ALLOW
  /\ rbacActionFromAuthPolicy (Some (Sample.policyFor "svc" "" [])) = RBAC_ALLOW.
Proof.
  split; [|split].
  - apply (proj1 fail_open_action Sample.otherLister Sample.backend
             [Sample.policyFor "other" "ALLOW" []]).
    + reflexivity.
    + intros ap Hap [_ Hname].
      apply list_elem_of_singleton in Hap. subst ap. discriminate Hname.
  - apply (proj2 fail_open_action). discriminate.
  - apply (proj2 fail_open_action). discriminate.
Defined.

(** C2. Whenever the resolved action is ALLOW the output holds, under
    their two fixed names, a policy that matches exactly the requests
    with HTTP method DELETE and an mcp-session-id header (its permission
    is "any"), and a policy for any principal that matches exactly the
    requests whose method metadata is "initialize",
    "notifications/initialized" or "tools/list", or whose HTTP method is
    GET. *)
Theorem baked_in_policies (lister : AuthPolicyLister) (backend : Backend) (cfg : RBAC) :
  rbacConfigFromAuthPolicy lister backend = Ok cfg ->
  Action cfg = RBAC_ALLOW ->
  exists close anyone,
    Policies cfg !! "allow-mcp-session-close" = Some close
    /\ Policies cfg !! "allow-anyone-to-initialize-and-list-tools" = Some anyone
    /\ Permissions close = [Permission_Any true]
    /\ (forall req,
          matchPrincipals close req = true
          <-> httpMethod req = Some "DELETE" /\ is_Some (headers req !! "mcp-session-id"))
    /\ (forall req,
          matchPolicy close req = true
          <-> httpMethod req = Some "DELETE" /\ is_Some (headers req !! "mcp-session-id"))
    /\ Principals anyone = [Principal_Any true]
    /\ (forall req,
          matchPolicy anyone req = true
          <-> (exists m, mcpMethod req = Some (StringValue m)
                         /\ m ∈ ["initialize"; "notifications/initialized"; "tools/list"])
              \/ httpMethod req = Some "GET").
Proof.
  unfold rbacConfigFromAuthPolicy.
  destruct (findAuthPolicyForBackend backend lister) as [found|err]; [|done].
  intros [= <-] _. rewrite rbacActionFromAuthPolicy_allow. simpl.
  exists buildAllowMCPSessionClosePolicy, buildAllowAnyoneToInitializeAndListToolsPolicy.
  split; [by rewrite lookup_insert_ne, lookup_insert_eq|].
  split; [by rewrite lookup_insert_eq|].
  split; [done|].
  split; [apply matchPrincipals_close|].
  split; [intros req; rewrite matchPolicy_close; apply matchPrincipals_close|].
  split; [done|].
  apply matchPolicy_anyone.
Qed.

(** The output for a backend without a policy of its own. *)
Lemma baked_in_policies_witness :
  exists cfg close anyone,
    rbacConfigFromAuthPolicy Sample.otherLister Sample.backend = Ok cfg
    /\ Policies cfg !! "allow-mcp-session-close" = Some close
    /\ Policies cfg !! "allow-anyone-to-initialize-and-list-tools" = Some anyone
    /\ Permissions close = [Permission_Any true]
    /\ Principals anyone = [Principal_Any true].
Proof.
  destruct (baked_in_policies Sample.otherLister Sample.backend
              {| Action := RBAC_ALLOW;
                 Policies :=
                   <[allowAnyoneToInitializeAndListToolsPolicyName :=
                       buildAllowAnyoneToInitializeAndListToolsPolicy]>
                     (<[allowMCPSessionClosePolicyName := buildAllowMCPSessionClosePolicy]> ∅) |}
              eq_refl eq_refl)
    as (close & anyone & Hc & Ha & Hperm & _ & _ & Hprin & _).
  eexists _, close, anyone. split; [reflexivity|]. auto.
Defined.

(** C3. A rule with a non-empty Tools list compiles to a policy whose
    only permission is the AND of "method metadata = tools/call" and
    "params.name metadata is one of the listed tools" (one exact match
    for a single tool, an OR of exact matches otherwise); a request is
    permitted exactly when it is a tools/call naming a listed tool. *)
Theorem tools_permission (authPolicy : AuthPolicy) (backend : Backend)
    (i : nat) (rule : AuthRule) :
  Rules (ap_Spec authPolicy) !! i = Some rule ->
  Tools rule <> [] ->
  exists pol,
    translateAuthPolicyToRBAC authPolicy backend
      !! RBACPolicyName (Namespace backend) (Name backend) i = Some pol
    /\ Permissions pol = [toolsCallPermission (Tools rule)]
    /\ (forall req,
          matchPermissions pol req = true
          <-> mcpMethod req = Some (StringValue "tools/call")
              /\ exists tool, tool ∈ Tools rule
                              /\ mcpToolName req = Some (StringValue tool)).
Proof.
  intros Hrule Htools. exists (rulePolicy rule).
  split; [by apply translateAuthPolicyToRBAC_lookup|].
  split; [by apply permissions_tools|].
  intros req. unfold matchPermissions. cbn [rulePolicy Permissions].
  rewrite permissions_tools by done. cbn [existsb]. rewrite orb_false_r.
  apply matchPermission_toolsCall.
Qed.

(** The rule allowing "add" and "getTinyImage": calls naming either are
    permitted, a call naming "echo" is not. *)
Lemma tools_permission_witness :
  exists pol,
    translateAuthPolicyToRBAC (Sample.policyFor "svc" "ALLOW" [Sample.toolsRule]) Sample.backend
      !! "ns-svc-rule-0" = Some pol
    /\ matchPermissions pol (Sample.toolsCall "default/b" "add") = true
    /\ matchPermissions pol (Sample.toolsCall "default/b" "getTinyImage") = true
    /\ matchPermissions pol (Sample.toolsCall "default/b" "echo") = false.
Proof.
  destruct (tools_permission (Sample.policyFor "svc" "ALLOW" [Sample.toolsRule])
              Sample.backend 0 Sample.toolsRule eq_refl)
    as (pol & Hpol & _ & Hmatch); [discriminate|].
  exists pol. split; [exact Hpol|].
  split; [|split].
  - apply Hmatch. split; [reflexivity|].
    exists "add". split; [|reflexivity]. simpl. left.
  - apply Hmatch. split; [reflexivity|].
    exists "getTinyImage". split; [|reflexivity]. simpl. right. left.
  - apply not_true_is_false. intros H. apply Hmatch in H as (_ & tool & Hin & Htool).
    injection Htool as <-. simpl in Hin. not_listed Hin.
Defined.

(** C4, as stated, fails on a rule that lists no identity and no service
    account: its policy is stored under the rule's name but has no
    principal at all, so it is not one OR'd set of exact matches. *)
Lemma no_source_rule_has_no_or_principal :
  Rules (ap_Spec (Sample.policyFor "svc" "ALLOW" [Sample.noSourceRule])) !! 0%nat
    = Some Sample.noSourceRule
  /\ (exists pol,
        translateAuthPolicyToRBAC (Sample.policyFor "svc" "ALLOW" [Sample.noSourceRule])
          Sample.backend !! "ns-svc-rule-0" = Some pol
        /\ Principals pol = [])
  /\ ~ (exists pol,
          translateAuthPolicyToRBAC (Sample.policyFor "svc" "ALLOW" [Sample.noSourceRule])
            Sample.backend !! RBACPolicyName "ns" "svc" 0 = Some pol
          /\ flatOrOfExactMatches
               (Identities (rule_Source Sample.noSourceRule)
                ++ ServiceAccounts (rule_Source Sample.noSourceRule)) pol).
Proof.
  assert (Hlook :
    translateAuthPolicyToRBAC (Sample.policyFor "svc" "ALLOW" [Sample.noSourceRule])
      Sample.backend !! "ns-svc-rule-0" = Some (rulePolicy Sample.noSourceRule)).
  { by apply (translateAuthPolicyToRBAC_lookup _ Sample.backend 0 Sample.noSourceRule). }
  split; [reflexivity|]. split.
  - exists (rulePolicy Sample.noSourceRule). by split.
  - intros (pol & Hpol & Hflat).
    change (RBACPolicyName "ns" "svc" 0) with "ns-svc-rule-0" in Hpol.
    rewrite Hlook in Hpol. injection Hpol as <-.
    unfold flatOrOfExactMatches in Hflat. discriminate Hflat.
Qed.

(** C4, amended. The rule at index i is stored under
    "<namespace>-<name>-rule-<i>"; when it lists at least one identity or
    service account, its principals are exactly one OR'd set of exact
    matches of the caller identity against Identities followed by
    ServiceAccounts, so a request matches exactly when its identity is
    one of the listed values. *)
Theorem source_principals (authPolicy : AuthPolicy) (backend : Backend)
    (i : nat) (rule : AuthRule) :
  Rules (ap_Spec authPolicy) !! i = Some rule ->
  exists pol,
    translateAuthPolicyToRBAC authPolicy backend
      !! (Namespace backend +:+ "-" +:+ Name backend +:+ "-rule-" +:+ pretty i) = Some pol
    /\ (Identities (rule_Source rule) ++ ServiceAccounts (rule_Source rule) <> [] ->
        flatOrOfExactMatches
          (Identities (rule_Source rule) ++ ServiceAccounts (rule_Source rule)) pol
        /\ forall req,
             matchPrincipals pol req = true
             <-> exists v, identity req = Some v
                           /\ v ∈ Identities (rule_Source rule)
                                  ++ ServiceAccounts (rule_Source rule)).
Proof.
  intros Hrule. exists (rulePolicy rule).
  split; [by apply translateAuthPolicyToRBAC_lookup|].
  intros Hne. split.
  - unfold flatOrOfExactMatches. cbn [rulePolicy Principals].
    by rewrite principalIDs_nonempty.
  - intros req. unfold matchPrincipals. cbn [rulePolicy Principals].
    rewrite principalIDs_nonempty by done.
    cbn [existsb matchPrincipal]. rewrite orb_false_r.
    apply existsb_sourcePrincipal.
Qed.

(** One identity and one service account: a caller equal to either
    matches, a third caller does not. *)
Lemma source_principals_witness :
  exists pol,
    translateAuthPolicyToRBAC (Sample.policyFor "svc" "ALLOW" [Sample.toolsRule]) Sample.backend
      !! "ns-svc-rule-0" = Some pol
    /\ flatOrOfExactMatches ["spiffe://td/ns/default/sa/a"; "default/b"] pol
    /\ matchPrincipals pol (Sample.toolsCall "spiffe://td/ns/default/sa/a" "add") = true
    /\ matchPrincipals pol (Sample.toolsCall "default/b" "add") = true
    /\ matchPrincipals pol (Sample.toolsCall "default/c" "add") = false.
Proof.
  destruct (source_principals (Sample.policyFor "svc" "ALLOW" [Sample.toolsRule])
              Sample.backend 0 Sample.toolsRule eq_refl)
    as (pol & Hpol & Hsrc).
  destruct Hsrc as [Hflat Hmatch]; [discriminate|].
  exists pol. split; [exact Hpol|]. split; [exact Hflat|].
  split; [|split].
  - apply Hmatch. eexists. split; [reflexivity|]. simpl. left.
  - apply Hmatch. eexists. split; [reflexivity|]. simpl. right. left.
  - apply not_true_is_false. intros H. apply Hmatch in H as (v & Hv & Hin).
    injection Hv as <-. simpl in Hin. not_listed Hin.
Defined.

(** C5. A rule with an empty Tools list still gets a policy under its
    deterministic name: the principals are those compiled from its Source
    (one OR'd set of exact matches of the x-user-role header against the
    identities followed by the service accounts, nothing when both are
    empty), the permissions list is empty, so the policy permits no
    request; an index without a rule has no entry at all. *)
Theorem empty_tools_policy (authPolicy : AuthPolicy) (backend : Backend)
    (i : nat) (rule : AuthRule) :
  Rules (ap_Spec authPolicy) !! i = Some rule ->
  Tools rule = [] ->
  (exists pol,
      translateAuthPolicyToRBAC authPolicy backend
        !! RBACPolicyName (Namespace backend) (Name backend) i = Some pol
      /\ Principals pol =
           match Identities (rule_Source rule) ++ ServiceAccounts (rule_Source rule) with
           | [] => []
           | sources =>
               [ Principal_OrIds
                   (map (fun source =>
                           Principal_Header
                             {| hm_Name := "x-user-role";
                                hm_Specifier :=
                                  HeaderMatcher_StringMatch
                                    (StringMatcher_Exact source) |})
                        sources) ]
           end
      /\ Permissions pol = []
      /\ forall req, matchPolicy pol req = false)
  /\ (forall j,
        Rules (ap_Spec authPolicy) !! j = None ->
        translateAuthPolicyToRBAC authPolicy backend
          !! RBACPolicyName (Namespace backend) (Name backend) j = None).
Proof.
  intros Hrule Htools. split.
  - exists (rulePolicy rule).
    assert (Hperm : permissions rule = []) by (unfold permissions; by rewrite Htools).
    split; [by apply translateAuthPolicyToRBAC_lookup|].
    split; [|split; [exact Hperm|]].
    + cbn [rulePolicy Principals]. unfold principalIDs.
      destruct (Identities (rule_Source rule) ++ ServiceAccounts (rule_Source rule)); done.
    + intros req. unfold matchPolicy, matchPermissions. cbn [rulePolicy Permissions].
      by rewrite Hperm.
  - intros j. apply translateAuthPolicyToRBAC_lookup_None.
Qed.

(** A single rule without tools: an entry for index 0, none for index 1. *)
Lemma empty_tools_policy_witness :
  (exists pol,
      translateAuthPolicyToRBAC (Sample.policyFor "svc" "ALLOW" [Sample.noToolsRule])
        Sample.backend !! "ns-svc-rule-0" = Some pol
      /\ Principals pol =
           [ Principal_OrIds
               [ Principal_Header
                   {| hm_Name := "x-user-role";
                      hm_Specifier :=
                        HeaderMatcher_StringMatch
                          (StringMatcher_Exact "spiffe://td/ns/default/sa/a") |};
                 Principal_Header
                   {| hm_Name := "x-user-role";
                      hm_Specifier :=
                        HeaderMatcher_StringMatch (StringMatcher_Exact "default/b") |} ] ]
      /\ Permissions pol = [])
  /\ translateAuthPolicyToRBAC (Sample.policyFor "svc" "ALLOW" [Sample.noToolsRule])
       Sample.backend !! "ns-svc-rule-1" = None.
Proof.
  destruct (empty_tools_policy (Sample.policyFor "svc" "ALLOW" [Sample.noToolsRule])
              Sample.backend 0 Sample.noToolsRule eq_refl eq_refl)
    as [(pol & Hpol & Hprin & Hperm & _) Hnone].
  split.
  - exists pol. split; [exact Hpol|]. split; [exact Hprin | exact Hperm].
  - apply (Hnone 1%nat). reflexivity.
Defined.

(** C10. A rule whose Source has neither identities nor service accounts
    compiles to a policy with an empty principals list: there is no
    match-anything principal in it and no request matches it. *)
Theorem empty_source_no_principal (authPolicy : AuthPolicy) (backend : Backend)
    (i : nat) (rule : AuthRule) :
  Rules (ap_Spec authPolicy) !! i = Some rule ->
  Identities (rule_Source rule) = [] ->
  ServiceAccounts (rule_Source rule) = [] ->
  exists pol,
    translateAuthPolicyToRBAC authPolicy backend
      !! RBACPolicyName (Namespace backend) (Name backend) i = Some pol
    /\ Principals pol = []
    /\ (Principal_Any true ∉ Principals pol)
    /\ forall req, matchPrincipals pol req = false /\ matchPolicy pol req = false.
Proof.
  intros Hrule Hids Hsas. exists (rulePolicy rule).
  assert (Hprin : Principals (rulePolicy rule) = [])
    by (by apply principalIDs_empty).
  split; [by apply translateAuthPolicyToRBAC_lookup|].
  split; [exact Hprin|]. split.
  - rewrite Hprin. apply not_elem_of_nil.
  - intros req. unfold matchPolicy, matchPrincipals. rewrite Hprin. simpl.
    split; [done | apply andb_false_r].
Qed.

(** A rule with an empty Source permits not even its listed tool. *)
Lemma empty_source_no_principal_witness :
  exists pol,
    translateAuthPolicyToRBAC (Sample.policyFor "svc" "ALLOW" [Sample.noSourceRule])
      Sample.backend !! "ns-svc-rule-0" = Some pol
    /\ Principals pol = []
    /\ matchPolicy pol (Sample.toolsCall "default/b" "add") = false.
Proof.
  destruct (empty_source_no_principal (Sample.policyFor "svc" "ALLOW" [Sample.noSourceRule])
              Sample.backend 0 Sample.noSourceRule eq_refl eq_refl eq_refl)
    as (pol & Hpol & Hprin & _ & Hreq).
  exists pol. split; [exact Hpol|]. split; [exact Hprin|]. apply Hreq.
Defined.

(* ===================================================================== *)
(** ** The connectivity compiler                                         *)
(* ===================================================================== *)

Lemma uint32_in_range (x : Z) : (0 <= x < 2 ^ 32)%Z -> uint32 x = x.
Proof. intros H. unfold uint32. by apply Z.mod_small. Qed.

(** C6. The cluster of a backend is named "<namespace>-<name>". With a
    service name it resolves by strict DNS, its load assignment is the one
    for "<service>.<namespace>.svc.cluster.local" and the backend's port,
    and it has no transport socket; without one it resolves by logical
    DNS, its load assignment is the one for hostname and port, and it
    carries the TLS transport socket packed from the context whose SNI is
    the hostname (the conversion fails only if that packing fails). *)
Theorem backend_cluster {ClusterLoadAssignment : Type}
    (createClusterLoadAssignment : string -> string -> Z -> ClusterLoadAssignment)
    (anypb_New : UpstreamTlsContext -> result Any) (backend : Backend) :
  (ServiceName backend <> "" ->
   convertBackendToCluster createClusterLoadAssignment anypb_New backend =
     Ok {| cluster_Name := Namespace backend +:+ "-" +:+ Name backend;
           ConnectTimeout := {| Seconds := 5; Nanos := 0 |};
           ClusterDiscoveryType := Some Cluster_STRICT_DNS;
           LoadAssignment :=
             Some (createClusterLoadAssignment
                     (Namespace backend +:+ "-" +:+ Name backend)
                     (ServiceName backend +:+ "." +:+ Namespace backend
                        +:+ ".svc.cluster.local")
                     (uint32 (Port backend)));
           cluster_TransportSocket := None |})
  /\ (ServiceName backend = "" ->
      match anypb_New {| Sni := Hostname backend |} with
      | Ok any =>
          convertBackendToCluster createClusterLoadAssignment anypb_New backend =
            Ok {| cluster_Name := Namespace backend +:+ "-" +:+ Name backend;
                  ConnectTimeout := {| Seconds := 5; Nanos := 0 |};
                  ClusterDiscoveryType := Some Cluster_LOGICAL_DNS;
                  LoadAssignment :=
                    Some (createClusterLoadAssignment
                            (Namespace backend +:+ "-" +:+ Name backend)
                            (Hostname backend)
                            (uint32 (Port backend)));
                  cluster_TransportSocket :=
                    Some {| ts_Name := "envoy.transport_sockets.tls";
                            TypedConfig := any |} |}
      | Err err =>
          convertBackendToCluster createClusterLoadAssignment anypb_New backend = Err err
      end)
  /\ ((0 <= Port backend < 2 ^ 32)%Z -> uint32 (Port backend) = Port backend).
Proof.
  unfold convertBackendToCluster. split; [|split].
  - intros Hsvc. by rewrite bool_decide_eq_true_2.
  - intros Hsvc. rewrite bool_decide_eq_false_2 by (intros H; by apply H).
    by destruct (anypb_New {| Sni := Hostname backend |}).
  - apply uint32_in_range.
Qed.

(** The in-cluster backend svc in ns on port 8080 and the external
    backend api.example.com on port 443. *)
Lemma backend_cluster_witness :
  convertBackendToCluster Sample.createClusterLoadAssignment Sample.anypb_New Sample.backend =
    Ok {| cluster_Name := "ns-svc";
          ConnectTimeout := {| Seconds := 5; Nanos := 0 |};
          ClusterDiscoveryType := Some Cluster_STRICT_DNS;
          LoadAssignment := Some ("ns-svc", "svc.ns.svc.cluster.local", 8080%Z);
          cluster_TransportSocket := None |}
  /\ (exists cluster socket,
        convertBackendToCluster Sample.createClusterLoadAssignment Sample.anypb_New
          Sample.externalBackend = Ok cluster
        /\ ClusterDiscoveryType cluster = Some Cluster_LOGICAL_DNS
        /\ LoadAssignment cluster = Some ("ns-ext", "api.example.com", 443%Z)
        /\ cluster_TransportSocket cluster = Some socket
        /\ ts_Name socket = "envoy.transport_sockets.tls"
        /\ Sample.anypb_New {| Sni := "api.example.com" |} = Ok (TypedConfig socket))
  /\ uint32 (Port Sample.externalBackend) = 443%Z.
Proof.
  split; [|split].
  - apply (proj1 (backend_cluster Sample.createClusterLoadAssignment Sample.anypb_New
                    Sample.backend)).
    discriminate.
  - pose proof (proj1 (proj2 (backend_cluster Sample.createClusterLoadAssignment
                                Sample.anypb_New Sample.externalBackend))
                  eq_refl) as H.
    simpl in H. eexists _, _. split; [exact H|]. by repeat split.
  - apply (proj2 (proj2 (backend_cluster Sample.createClusterLoadAssignment
                           Sample.anypb_New Sample.externalBackend))).
    simpl. lia.
Defined.

(* ===================================================================== *)
(** ** The distribution server                                           *)
(* ===================================================================== *)

Section XDSProperties.

Context {Resources Snapshot SnapshotCache : Type}.
Variable NewSnapshot : string -> Resources -> result Snapshot.
Variable SetSnapshot : SnapshotCache -> string -> Snapshot -> SnapshotCache * option string.

Lemma UpdateXDSServer_version (s : Server SnapshotCache) nodeid resources :
  version (UpdateXDSServer NewSnapshot SetSnapshot s nodeid resources).1
  = uint64 (version s + 1).
Proof.
  unfold UpdateXDSServer. simpl.
  destruct (NewSnapshot _ resources) as [snapshot|err]; [|done].
  by destruct (SetSnapshot (cache s) nodeid snapshot) as [cache' [err|]].
Qed.

Lemma uint64_succ (v : Z) : (0 <= v < 2 ^ 64 - 1)%Z -> uint64 (v + 1) = (v + 1)%Z.
Proof. intros H. unfold uint64. apply Z.mod_small. lia. Qed.

(** Called alone, a call runs its four steps and ends as [UpdateXDSServer]
    says. *)
Lemma run_alone (s : Server SnapshotCache) nodeid resources :
  run NewSnapshot SetSnapshot [0; 0; 0; 0]%nat
    {| sys_server := s; sys_calls := [newCall nodeid resources] |}
  = {| sys_server := (UpdateXDSServer NewSnapshot SetSnapshot s nodeid resources).1;
       sys_calls :=
         [at_point (newCall nodeid resources)
            (Returned (UpdateXDSServer NewSnapshot SetSnapshot s nodeid resources).2)] |}.
Proof.
  unfold run, UpdateXDSServer. cbn.
  destruct (NewSnapshot _ resources) as [snapshot|err]; cbn; [|done].
  by destruct (SetSnapshot (cache s) nodeid snapshot) as [cache' [err|]].
Qed.

(** Only the commit step touches the cache. *)
Lemma stepCall_cache (s : Server SnapshotCache) (c : Call Resources Snapshot) :
  (forall v snapshot, call_at c <> AtSetSnapshot v snapshot) ->
  cache (stepCall NewSnapshot SetSnapshot s c).1 = cache s.
Proof.
  intros H. unfold stepCall.
  destruct (call_at c) as [| |v|v snapshot|err]; simpl; try done.
  - by destruct (NewSnapshot (pretty v) (call_resources c)).
  - by destruct (H v snapshot).
Qed.

(** One call after another: the counter, and with it the version read,
    grows as long as it does not wrap. *)
Lemma sequential_versions_increase (s : Server SnapshotCache) nodeid resources :
  (0 <= version s < 2 ^ 64 - 1)%Z ->
  (version s < version (UpdateXDSServer NewSnapshot SetSnapshot s nodeid resources).1)%Z.
Proof. intros H. rewrite UpdateXDSServer_version, uint64_succ by done. lia. Qed.

(** Two calls started together, both adding before either loads, read the
    same version, whatever the server, the nodes and the resources. *)
Lemma racing_calls_read_the_same_version (s : Server SnapshotCache)
    nodeid1 resources1 nodeid2 resources2 :
  map call_version
    (sys_calls
       (run NewSnapshot SetSnapshot [0; 1; 0; 1]%nat
          {| sys_server := s;
             sys_calls := [newCall nodeid1 resources1; newCall nodeid2 resources2] |}))
  = [Some (uint64 (uint64 (version s + 1) + 1));
     Some (uint64 (uint64 (version s + 1) + 1))].
Proof. reflexivity. Qed.

(** C8. When snapshot creation fails, the call returns an error and
    leaves the cache as it was, so whatever was served for the node id
    before is still what is served; the same holds, step by step, for a
    call running among others. *)
Theorem snapshot_creation_failure (s : Server SnapshotCache) (nodeid : string)
    (resources : Resources) (err : string) :
  NewSnapshot (pretty (uint64 (version s + 1))) resources = Err err ->
  (exists s' msg,
      UpdateXDSServer NewSnapshot SetSnapshot s nodeid resources = (s', Some msg)
      /\ cache s' = cache s
      /\ forall GetSnapshot : SnapshotCache -> string -> option Snapshot,
           GetSnapshot (cache s') nodeid = GetSnapshot (cache s) nodeid)
  /\ (forall (s0 : Server SnapshotCache) (c : Call Resources Snapshot) v e,
        call_at c = AtNewSnapshot v ->
        NewSnapshot (pretty v) (call_resources c) = Err e ->
        exists msg,
          stepCall NewSnapshot SetSnapshot s0 c = (s0, at_point c (Returned (Some msg)))).
Proof.
  intros Hfail. split.
  - unfold UpdateXDSServer. simpl. rewrite Hfail.
    eexists _, _. split; [reflexivity|]. by split.
  - intros s0 c v e Hat He. unfold stepCall. rewrite Hat, He. by eexists.
Qed.

(** C9. Every call adds exactly one to the counter (modulo 2^64) whatever
    its outcome, and does so before the snapshot is created: the snapshot
    is created under the incremented value.  So a failed call uses up a
    number, and the next successful publish after it is versioned two
    above the counter the failed call started from. *)
Theorem every_call_consumes_a_version (s : Server SnapshotCache) (nodeid : string)
    (resources : Resources) :
  version (UpdateXDSServer NewSnapshot SetSnapshot s nodeid resources).1
    = uint64 (version s + 1)
  /\ ((0 <= version s < 2 ^ 64 - 1)%Z ->
      version (UpdateXDSServer NewSnapshot SetSnapshot s nodeid resources).1
        = (version s + 1)%Z)
  /\ stepCall NewSnapshot SetSnapshot s (newCall nodeid resources)
       = (version_Add s 1, at_point (newCall nodeid resources) AtLoad)
  /\ (forall msg nodeid' resources',
        (0 <= version s < 2 ^ 64 - 2)%Z ->
        (UpdateXDSServer NewSnapshot SetSnapshot s nodeid resources).2 = Some msg ->
        (UpdateXDSServer NewSnapshot SetSnapshot
           (UpdateXDSServer NewSnapshot SetSnapshot s nodeid resources).1
           nodeid' resources').2 = None ->
        exists snapshot,
          NewSnapshot (pretty (version s + 2)%Z) resources' = Ok snapshot
          /\ cache (UpdateXDSServer NewSnapshot SetSnapshot
                      (UpdateXDSServer NewSnapshot SetSnapshot s nodeid resources).1
                      nodeid' resources').1
             = (SetSnapshot
                  (cache (UpdateXDSServer NewSnapshot SetSnapshot s nodeid resources).1)
                  nodeid' snapshot).1).
Proof.
  split; [apply UpdateXDSServer_version|].
  split; [intros H; by rewrite UpdateXDSServer_version, uint64_succ|].
  split; [done|].
  intros msg nodeid' resources' Hrange _.
  pose proof (UpdateXDSServer_version s nodeid resources) as Hv.
  rewrite uint64_succ in Hv by lia.
  set (s1 := (UpdateXDSServer NewSnapshot SetSnapshot s nodeid resources).1) in *.
  clearbody s1. unfold UpdateXDSServer. simpl.
  rewrite Hv, uint64_succ by lia.
  replace (version s + 1 + 1)%Z with (version s + 2)%Z by lia.
  destruct (NewSnapshot (pretty (version s + 2)%Z) resources') as [snapshot|e]; [|done].
  destruct (SetSnapshot (cache s1) nodeid' snapshot) as [cache' [e|]] eqn:Hset; [done|].
  intros _. exists snapshot. split; [done|]. simpl. by rewrite Hset.
Qed.

End XDSProperties.

(** A valid publish for node-a followed by a malformed one: the snapshot
    with version 1 stays in the cache. *)
Lemma snapshot_creation_failure_witness :
  exists s' msg,
    Sample.update (Sample.update Sample.freshServer "node-a" ["listener"]).1
      "node-a" ["unknown"] = (s', Some msg)
    /\ cache s' = {[ "node-a" := ("1", ["listener"]) ]}.
Proof.
  destruct (snapshot_creation_failure Sample.NewSnapshot Sample.SetSnapshot
              (Sample.update Sample.freshServer "node-a" ["listener"]).1
              "node-a" ["unknown"] "unknown resource type: unknown" eq_refl)
    as [(s' & msg & Hupd & Hcache & _) _].
  exists s', msg. split; [exact Hupd|]. rewrite Hcache. reflexivity.
Defined.

(** A failed first publish uses up 1; the next publish is versioned 2. *)
Lemma every_call_consumes_a_version_witness :
  version (Sample.update Sample.freshServer "node-a" ["unknown"]).1 = 1%Z
  /\ (Sample.update Sample.freshServer "node-a" ["unknown"]).2
     = Some "failed to create new snapshot cache: unknown resource type: unknown"
  /\ cache (Sample.update (Sample.update Sample.freshServer "node-a" ["unknown"]).1
              "node-b" ["cluster"]).1
     = {[ "node-b" := ("2", ["cluster"]) ]}.
Proof.
  pose proof (every_call_consumes_a_version Sample.NewSnapshot Sample.SetSnapshot
                Sample.freshServer "node-a" ["unknown"]) as (_ & Hone & _ & Hskip).
  split; [apply Hone; simpl; lia|]. split; [reflexivity|].
  destruct (Hskip _ "node-b" ["cluster"] ltac:(simpl; lia) eq_refl eq_refl)
    as (snapshot & Hnew & Hcache).
  unfold Sample.update. rewrite Hcache.
  injection Hnew as <-. reflexivity.
Defined.

(** C7. Two publishes for two proxies, interleaved so that both add
    before either loads: both calls read 2, and the snapshots committed
    for node-a and node-b carry the same version token (no snapshot
    carries 1). *)
Theorem racing_publishes_share_a_version :
  map call_version
    (sys_calls (run Sample.NewSnapshot Sample.SetSnapshot [0; 1; 0; 1]%nat Sample.twoCalls))
  = [Some 2%Z; Some 2%Z]
  /\ run Sample.NewSnapshot Sample.SetSnapshot Sample.racingSchedule Sample.twoCalls
     = {| sys_server :=
            {| cache :=
                 {[ "node-a" := ("2", ["listener"]); "node-b" := ("2", ["cluster"]) ]};
               version := 2 |};
          sys_calls :=
            [ at_point (newCall "node-a" ["listener"]) (Returned None);
              at_point (newCall "node-b" ["cluster"]) (Returned None) ] |}.
Proof. split; reflexivity. Qed.

(* ===================================================================== *)
(** ** More on the RBAC compiler                                         *)
(* ===================================================================== *)

Lemma lastChar_app (s t : string) : t <> "" -> lastChar (s +:+ t) = lastChar t.
Proof.
  intros Ht. induction s as [|c s IH]; [done|].
  simpl. rewrite IH. destruct (s +:+ t) eqn:Hst; [|done].
  destruct s; simpl in Hst; [done | discriminate].
Qed.

Lemma lastChar_pretty_N_go (x : N) : forall s,
  s <> "" -> lastChar (pretty_N_go x s) = lastChar s.
Proof.
  induction (N.lt_wf_0 x) as [x _ IH]; intros s Hs.
  assert (x = 0 \/ 0 < x)%N as [->|Hx] by lia; [by rewrite pretty_N_go_0|].
  rewrite pretty_N_go_step by done.
  rewrite IH; [|by apply N.div_lt|done].
  by destruct s.
Qed.

Lemma isDigit_pretty_N_char (x : N) : isDigit (pretty_N_char x) = true.
Proof. unfold pretty_N_char. by repeat case_match. Qed.

Lemma lastChar_pretty_nat (i : nat) :
  exists c, lastChar (pretty i) = Some c /\ isDigit c = true.
Proof.
  unfold pretty, pretty_nat, pretty, pretty_N.
  case_decide as H0; [by eexists|].
  rewrite pretty_N_go_step by lia.
  destruct (decide (N.of_nat i `div` 10 = 0)%N) as [->|Hd].
  - rewrite pretty_N_go_0. eexists. split; [done|]. apply isDigit_pretty_N_char.
  - rewrite lastChar_pretty_N_go by done. eexists. split; [done|].
    apply isDigit_pretty_N_char.
Qed.

Lemma append_ne_empty (s t : string) : t <> "" -> s +:+ t <> "".
Proof. by destruct s. Qed.

(** A generated rule name ends in a digit. *)
Lemma lastChar_RBACPolicyName ns name i :
  exists c, lastChar (RBACPolicyName ns name i) = Some c /\ isDigit c = true.
Proof.
  destruct (lastChar_pretty_nat i) as (c & Hc & Hd).
  exists c. split; [|done]. unfold RBACPolicyName.
  assert (pretty i <> "") by (intros E; by rewrite E in Hc).
  rewrite (lastChar_app ns) by done.
  rewrite (lastChar_app "-") by by apply append_ne_empty.
  rewrite (lastChar_app name) by done.
  by rewrite (lastChar_app "-rule-").
Qed.

Lemma RBACPolicyName_not_baked_in ns name i :
  RBACPolicyName ns name i <> allowMCPSessionClosePolicyName
  /\ RBACPolicyName ns name i <> allowAnyoneToInitializeAndListToolsPolicyName.
Proof.
  destruct (lastChar_RBACPolicyName ns name i) as (c & Hc & Hd).
  split; intros E; rewrite E in Hc; injection Hc as <-; discriminate Hd.
Qed.

(** Every entry the rule loop leaves in the map was there before or was
    written for one of the rules. *)
Lemma translateRules_lookup_Some backend rules : forall i policies k pol,
  translateRules backend i rules policies !! k = Some pol ->
  policies !! k = Some pol
  \/ exists j rule,
       rules !! j = Some rule
       /\ k = RBACPolicyName (Namespace backend) (Name backend) (i + j)
       /\ pol = rulePolicy rule.
Proof.
  induction rules as [|r rest IH]; intros i policies k pol Hk; [by left|].
  simpl in Hk. apply IH in Hk as [Hk|(j & rule & Hj & -> & ->)].
  - apply lookup_insert_Some in Hk as [[<- <-]|[_ Hk]]; [|by left].
    right. exists 0%nat, r. by rewrite Nat.add_0_r.
  - right. exists (S j), rule. split; [done|]. split; [f_equal; lia|done].
Qed.

Lemma translateRules_size backend rules : forall i policies,
  (forall j, (i <= j)%nat ->
     policies !! RBACPolicyName (Namespace backend) (Name backend) j = None) ->
  size (translateRules backend i rules policies) = (size policies + length rules)%nat.
Proof.
  induction rules as [|r rest IH]; intros i policies Hfree; simpl; [lia|].
  rewrite IH.
  - rewrite map_size_insert_None by (apply Hfree; lia). lia.
  - intros j Hj. rewrite lookup_insert_ne; [apply Hfree; lia|].
    intros E. apply RBACPolicyName_inj in E. lia.
Qed.

(** X1. The compiled map holds exactly one entry per rule: an entry sits
    under a key exactly when the key is the name of a rule's index and the
    entry is that rule's policy; the map has as many entries as rules. *)
Theorem translateAuthPolicyToRBAC_entries (authPolicy : AuthPolicy) (backend : Backend) :
  (forall k pol,
      translateAuthPolicyToRBAC authPolicy backend !! k = Some pol
      <-> exists i rule,
            Rules (ap_Spec authPolicy) !! i = Some rule
            /\ k = RBACPolicyName (Namespace backend) (Name backend) i
            /\ pol = rulePolicy rule)
  /\ size (translateAuthPolicyToRBAC authPolicy backend)
     = length (Rules (ap_Spec authPolicy)).
Proof.
  split.
  - intros k pol. split.
    + intros H. apply translateRules_lookup_Some in H as [H|H]; [done|].
      destruct H as (j & rule & Hj & -> & ->). by exists j, rule.
    + intros (i & rule & Hi & -> & ->). by apply translateAuthPolicyToRBAC_lookup.
  - unfold translateAuthPolicyToRBAC. by rewrite translateRules_size.
Qed.

Lemma findAuthPolicyForBackend_Ok backend lister all :
  lister (Namespace backend) = Ok all ->
  findAuthPolicyForBackend backend lister
  = Ok (List.find (targetsBackend backend) all).
Proof. intros H. unfold findAuthPolicyForBackend. by rewrite H. Qed.

Lemma targetsBackend_true backend ap :
  targetsBackend backend ap = true <-> targets backend ap.
Proof.
  unfold targetsBackend, targets.
  by rewrite andb_true_iff, !bool_decide_eq_true.
Qed.

Lemma find_first {A} (f : A -> bool) (l : list A) (x : A) :
  List.find f l = Some x
  <-> exists before after,
        l = before ++ x :: after /\ f x = true /\ forall y, y ∈ before -> f y = false.
Proof.
  induction l as [|a l IH]; simpl.
  - split; [done|]. intros ([|??] & ? & ? & _); done.
  - destruct (f a) eqn:Hfa.
    + split.
      * intros [= ->]. exists [], l. split; [done|]. split; [done|].
        intros y Hy. by apply elem_of_nil in Hy.
      * intros ([|b before] & after & Hl & Hfx & Hbefore).
        -- by injection Hl as -> _.
        -- injection Hl as -> _. rewrite Hbefore in Hfa; [done|left].
    + rewrite IH. split.
      * intros (before & after & -> & Hfx & Hbefore).
        exists (a :: before), after. split; [done|]. split; [done|].
        intros y Hy. apply elem_of_cons in Hy as [->|Hy]; auto.
      * intros ([|b before] & after & Hl & Hfx & Hbefore).
        -- injection Hl as -> _. congruence.
        -- injection Hl as -> ->. exists before, after. split; [done|].
           split; [done|]. intros y Hy. apply Hbefore. by right.
Qed.

(** X2. The search returns the first listed AuthPolicy that targets the
    backend (kind "Backend", same name), and only that one. *)
Theorem findAuthPolicyForBackend_first (backend : Backend) (lister : AuthPolicyLister)
    (all : list AuthPolicy) (authPolicy : AuthPolicy) :
  lister (Namespace backend) = Ok all ->
  (findAuthPolicyForBackend backend lister = Ok (Some authPolicy)
   <-> exists before after,
         all = before ++ authPolicy :: after
         /\ targets backend authPolicy
         /\ forall other, other ∈ before -> ~ targets backend other).
Proof.
  intros Hall. rewrite (findAuthPolicyForBackend_Ok _ _ _ Hall).
  split.
  - intros [= H]. apply find_first in H as (before & after & -> & Hap & Hbefore).
    exists before, after. split; [done|]. split; [by apply targetsBackend_true|].
    intros other Hin Ht. apply targetsBackend_true in Ht.
    by rewrite (Hbefore other Hin) in Ht.
  - intros (before & after & -> & Hap & Hbefore). f_equal.
    apply find_first. exists before, after. split; [done|].
    split; [by apply targetsBackend_true|].
    intros y Hy. apply targetsBackend_false. by apply Hbefore.
Qed.

(** X3. The policies listed after the first one that targets the backend,
    and those before it that target something else, do not influence the
    generated configuration. *)
Theorem rbacConfigFromAuthPolicy_ignores_others (backend : Backend)
    (lister : AuthPolicyLister) (before after : list AuthPolicy) (authPolicy : AuthPolicy) :
  lister (Namespace backend) = Ok (before ++ authPolicy :: after) ->
  targets backend authPolicy ->
  (forall other, other ∈ before -> ~ targets backend other) ->
  rbacConfigFromAuthPolicy lister backend
  = rbacConfigFromAuthPolicy (fun _ => Ok [authPolicy]) backend.
Proof.
  intros Hall Hap Hbefore.
  assert (Hfind : forall l' lst,
            lst (Namespace backend) = Ok l' ->
            (exists b a, l' = b ++ authPolicy :: a
                         /\ forall o, o ∈ b -> ~ targets backend o) ->
            findAuthPolicyForBackend backend lst = Ok (Some authPolicy)).
  { intros l' lst Hl (b & a & -> & Hb).
    rewrite (findAuthPolicyForBackend_Ok _ _ _ Hl). f_equal.
    apply find_first. exists b, a. split; [done|].
    split; [by apply targetsBackend_true|].
    intros y Hy. apply targetsBackend_false. by apply Hb. }
  unfold rbacConfigFromAuthPolicy.
  rewrite (Hfind _ lister Hall) by (by exists before, after).
  rewrite (Hfind [authPolicy] (fun _ => Ok [authPolicy]) eq_refl); [done|].
  exists [], []. split; [done|]. intros o Ho. by apply elem_of_nil in Ho.
Qed.

(** X4. The compiler fails only when listing the AuthPolicies fails, and
    then reports the namespace and the cause. *)
Theorem rbacConfigFromAuthPolicy_error (lister : AuthPolicyLister) (backend : Backend)
    (msg : string) :
  rbacConfigFromAuthPolicy lister backend = Err msg
  <-> exists err,
        lister (Namespace backend) = Err err
        /\ msg = "failed to list AuthPolicies in namespace "
                   +:+ Namespace backend +:+ ": " +:+ err.
Proof.
  unfold rbacConfigFromAuthPolicy, findAuthPolicyForBackend.
  destruct (lister (Namespace backend)) as [all|err].
  - split; [done | by intros (e & ? & _)].
  - split.
    + intros [= <-]. by exists err.
    + by intros (e & [= <-] & ->).
Qed.

Lemma rbacConfigFromAuthPolicy_found lister backend found :
  findAuthPolicyForBackend backend lister = Ok found ->
  rbacConfigFromAuthPolicy lister backend
  = Ok {| Action := RBAC_ALLOW;
          Policies :=
            <[allowAnyoneToInitializeAndListToolsPolicyName :=
                buildAllowAnyoneToInitializeAndListToolsPolicy]>
              (<[allowMCPSessionClosePolicyName := buildAllowMCPSessionClosePolicy]>
                 (match found with
                  | Some ap => translateAuthPolicyToRBAC ap backend
                  | None => ∅
                  end)) |}.
Proof.
  intros H. unfold rbacConfigFromAuthPolicy. rewrite H.
  by rewrite rbacActionFromAuthPolicy_allow.
Qed.

(** X5. In the configuration generated for a backend with an AuthPolicy,
    the two baked-in policies never replace a rule's policy: every rule is
    found under its own name, and the map has two entries more than the
    policy has rules. *)
Theorem rbacConfigFromAuthPolicy_rules_kept (lister : AuthPolicyLister) (backend : Backend)
    (authPolicy : AuthPolicy) :
  findAuthPolicyForBackend backend lister = Ok (Some authPolicy) ->
  exists cfg,
    rbacConfigFromAuthPolicy lister backend = Ok cfg
    /\ Action cfg = RBAC_ALLOW
    /\ (forall i rule,
          Rules (ap_Spec authPolicy) !! i = Some rule ->
          Policies cfg !! RBACPolicyName (Namespace backend) (Name backend) i
          = Some (rulePolicy rule))
    /\ size (Policies cfg) = (length (Rules (ap_Spec authPolicy)) + 2)%nat.
Proof.
  intros Hfound. eexists. split; [by apply rbacConfigFromAuthPolicy_found|].
  cbn [Action Policies]. split; [done|]. split.
  - intros i rule Hi.
    destruct (RBACPolicyName_not_baked_in (Namespace backend) (Name backend) i)
      as [Hclose Hanyone].
    rewrite !lookup_insert_ne by done.
    by apply translateAuthPolicyToRBAC_lookup.
  - assert (Hnone : forall k,
              (forall i, k <> RBACPolicyName (Namespace backend) (Name backend) i) ->
              translateAuthPolicyToRBAC authPolicy backend !! k = None).
    { intros k Hk. apply eq_None_not_Some. intros [pol Hpol].
      apply translateRules_lookup_Some in Hpol as [Hpol|(i & _ & _ & -> & _)];
        [done | by apply (Hk i)]. }
    rewrite !map_size_insert_None.
    + unfold translateAuthPolicyToRBAC.
      rewrite translateRules_size by done. rewrite map_size_empty. lia.
    + apply Hnone. intros i E. symmetry in E.
      by apply RBACPolicyName_not_baked_in in E.
    + rewrite lookup_insert_ne by done.
      apply Hnone. intros i E. symmetry in E.
      by apply RBACPolicyName_not_baked_in in E.
Qed.

Lemma matchPrincipals_rulePolicy (rule : AuthRule) (req : Request) :
  matchPrincipals (rulePolicy rule) req = true
  <-> exists v, identity req = Some v
                /\ v ∈ Identities (rule_Source rule) ++ ServiceAccounts (rule_Source rule).
Proof.
  unfold matchPrincipals. cbn [rulePolicy Principals].
  destruct (Identities (rule_Source rule) ++ ServiceAccounts (rule_Source rule))
    as [|s l] eqn:Hsrc.
  - unfold principalIDs. rewrite Hsrc. simpl.
    split; [done | intros (v & _ & Hin); by apply elem_of_nil in Hin].
  - rewrite principalIDs_nonempty by (by rewrite Hsrc). rewrite Hsrc.
    cbn [existsb matchPrincipal]. rewrite orb_false_r.
    apply existsb_sourcePrincipal.
Qed.

Lemma matchPermissions_rulePolicy (rule : AuthRule) (req : Request) :
  matchPermissions (rulePolicy rule) req = true
  <-> mcpMethod req = Some (StringValue "tools/call")
      /\ exists tool, tool ∈ Tools rule /\ mcpToolName req = Some (StringValue tool).
Proof.
  unfold matchPermissions. cbn [rulePolicy Permissions].
  destruct (Tools rule) as [|t l] eqn:Htools.
  - unfold permissions. rewrite Htools. simpl.
    split; [done | intros (_ & tool & Hin & _); by apply elem_of_nil in Hin].
  - rewrite permissions_tools by (by rewrite Htools). rewrite Htools.
    cbn [existsb]. rewrite orb_false_r. apply matchPermission_toolsCall.
Qed.

(** X6. What one rule's policy lets through: exactly the requests whose
    caller identity is one of the rule's identities or service accounts
    and which are a tools/call naming one of the rule's tools. *)
Theorem rulePolicy_matches (rule : AuthRule) (req : Request) :
  matchPolicy (rulePolicy rule) req = true
  <-> (exists v, identity req = Some v
                 /\ v ∈ Identities (rule_Source rule) ++ ServiceAccounts (rule_Source rule))
      /\ mcpMethod req = Some (StringValue "tools/call")
      /\ exists tool, tool ∈ Tools rule /\ mcpToolName req = Some (StringValue tool).
Proof.
  unfold matchPolicy.
  rewrite andb_true_iff, matchPrincipals_rulePolicy, matchPermissions_rulePolicy.
  tauto.
Qed.

Lemma anyPolicyMatches_true (policies : gmap string Policy) (req : Request) :
  anyPolicyMatches policies req = true
  <-> exists k pol, policies !! k = Some pol /\ matchPolicy pol req = true.
Proof.
  unfold anyPolicyMatches. rewrite existsb_exists. split.
  - intros ([k pol] & Hin & Hm). exists k, pol. split; [|done].
    apply elem_of_map_to_list. by apply list_elem_of_In.
  - intros (k & pol & Hk & Hm). exists (k, pol). split; [|done].
    apply list_elem_of_In. by apply elem_of_map_to_list.
Qed.

(** X7. The decision of the generated filter.  A request passes exactly
    when it is a session close (DELETE with a session id), or a GET, or an
    initialize / initialized / tools-list call, or a tools/call that some
    rule of the backend's AuthPolicy grants to the caller.  Without an
    AuthPolicy only the first three remain. *)
Theorem rbacConfigFromAuthPolicy_allows (lister : AuthPolicyLister) (backend : Backend)
    (found : option AuthPolicy) :
  findAuthPolicyForBackend backend lister = Ok found ->
  exists cfg,
    rbacConfigFromAuthPolicy lister backend = Ok cfg
    /\ forall req,
         rbacAllows cfg req = true
         <-> (httpMethod req = Some "DELETE" /\ is_Some (headers req !! "mcp-session-id"))
             \/ httpMethod req = Some "GET"
             \/ (exists m, mcpMethod req = Some (StringValue m)
                           /\ m ∈ ["initialize"; "notifications/initialized"; "tools/list"])
             \/ (exists authPolicy i rule,
                   found = Some authPolicy
                   /\ Rules (ap_Spec authPolicy) !! i = Some rule
                   /\ (exists v, identity req = Some v
                                 /\ v ∈ Identities (rule_Source rule)
                                        ++ ServiceAccounts (rule_Source rule))
                   /\ mcpMethod req = Some (StringValue "tools/call")
                   /\ exists tool, tool ∈ Tools rule
                                   /\ mcpToolName req = Some (StringValue tool)).
Proof.
  intros Hfound. eexists. split; [by apply rbacConfigFromAuthPolicy_found|].
  intros req. unfold rbacAllows. cbn [Action Policies].
  rewrite anyPolicyMatches_true. split.
  - intros (k & pol & Hk & Hm).
    apply lookup_insert_Some in Hk as [[_ <-]|[_ Hk]].
    { apply matchPolicy_anyone in Hm. tauto. }
    apply lookup_insert_Some in Hk as [[_ <-]|[_ Hk]].
    { rewrite matchPolicy_close in Hm. apply matchPrincipals_close in Hm. tauto. }
    destruct found as [ap|]; [|by rewrite lookup_empty in Hk].
    apply translateRules_lookup_Some in Hk as [Hk|(i & rule & Hi & -> & ->)];
      [by rewrite lookup_empty in Hk|].
    unfold matchPolicy in Hm. apply andb_true_iff in Hm as [Hperm Hprin].
    apply matchPermissions_rulePolicy in Hperm as [Hcall Htool].
    apply matchPrincipals_rulePolicy in Hprin.
    right. right. right. by exists ap, i, rule.
  - intros [Hclose|[Hget|[Hinit|(ap & i & rule & -> & Hi & Hrule)]]].
    + exists allowMCPSessionClosePolicyName, buildAllowMCPSessionClosePolicy.
      split; [by rewrite lookup_insert_ne, lookup_insert_eq|].
      rewrite matchPolicy_close. by apply matchPrincipals_close.
    + exists allowAnyoneToInitializeAndListToolsPolicyName,
        buildAllowAnyoneToInitializeAndListToolsPolicy.
      split; [by rewrite lookup_insert_eq|]. apply matchPolicy_anyone. by right.
    + exists allowAnyoneToInitializeAndListToolsPolicyName,
        buildAllowAnyoneToInitializeAndListToolsPolicy.
      split; [by rewrite lookup_insert_eq|]. apply matchPolicy_anyone. by left.
    + exists (RBACPolicyName (Namespace backend) (Name backend) i), (rulePolicy rule).
      destruct Hrule as (Hid & Hcall & Htool).
      split;
        [|unfold matchPolicy; apply andb_true_iff; split;
          [by apply matchPermissions_rulePolicy | by apply matchPrincipals_rulePolicy]].
      destruct (RBACPolicyName_not_baked_in (Namespace backend) (Name backend) i)
        as [Hc Ha].
      rewrite !lookup_insert_ne by done.
      by apply translateAuthPolicyToRBAC_lookup.
Qed.

Lemma append_assoc (a b c : string) : (a +:+ b) +:+ c = a +:+ (b +:+ c).
Proof.
  induction a as [|x a IH]; [done|].
  change (String x ((a +:+ b) +:+ c) = String x (a +:+ (b +:+ c))). by rewrite IH.
Qed.

Lemma chars_append (s t : string) :
  String.list_ascii_of_string (s +:+ t)
  = String.list_ascii_of_string s ++ String.list_ascii_of_string t.
Proof.
  induction s as [|c s IH]; [done|].
  change (c :: String.list_ascii_of_string (s +:+ t)
          = c :: (String.list_ascii_of_string s ++ String.list_ascii_of_string t)).
  by rewrite IH.
Qed.

Lemma chars_inj (s t : string) :
  String.list_ascii_of_string s = String.list_ascii_of_string t -> s = t.
Proof.
  intros H. rewrite <- (String.string_of_list_ascii_of_string s),
    <- (String.string_of_list_ascii_of_string t). by rewrite H.
Qed.

Lemma append_empty_r (s : string) : s +:+ "" = s.
Proof.
  induction s as [|c s IH]; [done|].
  change (String c (s +:+ "") = String c s). by rewrite IH.
Qed.

(** The characters [pretty_N_go] puts in front are digits. *)
Lemma pretty_N_go_digits (x : N) : forall s,
  exists ds,
    pretty_N_go x s = ds +:+ s
    /\ Forall (fun c => isDigit c = true) (String.list_ascii_of_string ds).
Proof.
  induction (N.lt_wf_0 x) as [x _ IH]; intros s.
  assert (x = 0 \/ 0 < x)%N as [->|Hx] by lia.
  - exists "". by rewrite pretty_N_go_0.
  - rewrite pretty_N_go_step by done.
    destruct (IH (x `div` 10)%N (N.div_lt x 10 Hx eq_refl)
                (String (pretty_N_char (x `mod` 10)) s)) as (ds & -> & Hds).
    exists (ds +:+ String (pretty_N_char (x `mod` 10)) "").
    split; [by rewrite append_assoc|].
    rewrite chars_append. apply Forall_app. split; [done|].
    constructor; [apply isDigit_pretty_N_char | constructor].
Qed.

Lemma pretty_nat_digits (i : nat) :
  Forall (fun c => isDigit c = true) (String.list_ascii_of_string (pretty i)).
Proof.
  unfold pretty, pretty_nat, pretty, pretty_N.
  case_decide as H0; [by repeat constructor|].
  destruct (pretty_N_go_digits (N.of_nat i) "") as (ds & -> & Hds).
  by rewrite append_empty_r.
Qed.

(** A name, the rule marker and a run of digits can be read back. *)
Lemma rule_suffix_inj (name1 name2 : list Ascii.ascii) (digits1 digits2 : list Ascii.ascii) :
  Forall (fun c => isDigit c = true) digits1 ->
  Forall (fun c => isDigit c = true) digits2 ->
  (name1 ++ String.list_ascii_of_string "-rule-") ++ digits1
  = (name2 ++ String.list_ascii_of_string "-rule-") ++ digits2 ->
  name1 = name2 /\ digits1 = digits2.
Proof.
  assert (Hend : forall (a b k : list Ascii.ascii),
            Forall (fun c => isDigit c = true) k ->
            a ++ String.list_ascii_of_string "-rule-"
            = (b ++ String.list_ascii_of_string "-rule-") ++ k ->
            k = []).
  { intros a b k Hk Heq.
    destruct (decide (k = [])) as [->|Hne]; [done|].
    destruct (exists_last Hne) as (k' & z & ->).
    change (String.list_ascii_of_string "-rule-")
      with (String.list_ascii_of_string "-rule" ++ String.list_ascii_of_string "-") in Heq at 1.
    rewrite !app_assoc in Heq. apply app_inj_tail in Heq as [_ Hz].
    apply Forall_app in Hk as [_ Hk]. apply Forall_inv in Hk.
    rewrite <- Hz in Hk. discriminate Hk. }
  intros H1 H2 Heq.
  apply app_eq_inv in Heq as [(k & Hk & Hd)|(k & Hk & Hd)].
  - assert (k = []) as ->.
    { apply (Hend name1 name2 k); [|done].
      rewrite Hd in H2. by apply Forall_app in H2 as [H2 _]. }
    rewrite app_nil_r in Hk. simpl in Hd. split; [by apply app_inv_tail in Hk | done].
  - assert (k = []) as ->.
    { apply (Hend name2 name1 k); [|done].
      rewrite Hd in H1. by apply Forall_app in H1 as [H1 _]. }
    rewrite app_nil_r in Hk. simpl in Hd. split; [by apply app_inv_tail in Hk | done].
Qed.

(** X8. Generated names.  Within one namespace a cluster name determines
    the backend's name, and a rule name determines both the backend's
    name and the rule's index; across namespaces the names are ambiguous:
    namespace "a-b" with name "c" and namespace "a" with name "b-c" share
    one cluster name, and their rule names too. *)
Theorem generated_names (a b c : string) :
  (forall ns name1 name2, ClusterName ns name1 = ClusterName ns name2 -> name1 = name2)
  /\ (forall ns name1 name2 i j,
        RBACPolicyName ns name1 i = RBACPolicyName ns name2 j -> name1 = name2 /\ i = j)
  /\ ClusterName (a +:+ "-" +:+ b) c = ClusterName a (b +:+ "-" +:+ c)
  /\ (forall i, RBACPolicyName (a +:+ "-" +:+ b) c i = RBACPolicyName a (b +:+ "-" +:+ c) i).
Proof.
  split; [|split; [|split]].
  - intros ns name1 name2 H. unfold ClusterName in H.
    by do 2 apply String.app_inj in H.
  - intros ns name1 name2 i j H. unfold RBACPolicyName in H.
    do 2 apply String.app_inj in H.
    apply (f_equal String.list_ascii_of_string) in H.
    rewrite !chars_append, !app_assoc in H.
    apply rule_suffix_inj in H as [Hname Hdigits]; [|apply pretty_nat_digits..].
    split; [by apply chars_inj|].
    apply chars_inj in Hdigits. by apply (inj pretty) in Hdigits.
  - unfold ClusterName. by rewrite !append_assoc.
  - intros i. unfold RBACPolicyName. by rewrite !append_assoc.
Qed.

(** Two policies for [svc] after one for another backend: the first of the
    two is found. *)
Lemma findAuthPolicyForBackend_first_witness :
  findAuthPolicyForBackend Sample.backend Cases.crowdedLister = Ok (Some Cases.first).
Proof.
  apply (findAuthPolicyForBackend_first Sample.backend Cases.crowdedLister
           [Sample.policyFor "other" "ALLOW" []; Cases.first; Cases.second]
           Cases.first eq_refl).
  exists [Sample.policyFor "other" "ALLOW" []], [Cases.second].
  split; [reflexivity|]. split; [by split|].
  intros other Hin [_ Hname]. apply list_elem_of_singleton in Hin. subst other.
  discriminate Hname.
Defined.

(** The second policy for [svc], without tools, leaves no trace. *)
Lemma rbacConfigFromAuthPolicy_ignores_others_witness :
  rbacConfigFromAuthPolicy Cases.crowdedLister Sample.backend
  = rbacConfigFromAuthPolicy (fun _ => Ok [Cases.first]) Sample.backend.
Proof.
  apply (rbacConfigFromAuthPolicy_ignores_others Sample.backend Cases.crowdedLister
           [Sample.policyFor "other" "ALLOW" []] [Cases.second] Cases.first eq_refl).
  - by split.
  - intros other Hin [_ Hname]. apply list_elem_of_singleton in Hin. subst other.
    discriminate Hname.
Defined.

Lemma rbacConfigFromAuthPolicy_rules_kept_witness :
  exists cfg,
    rbacConfigFromAuthPolicy Cases.crowdedLister Sample.backend = Ok cfg
    /\ Policies cfg !! "ns-svc-rule-0" = Some (rulePolicy Sample.toolsRule)
    /\ size (Policies cfg) = 3%nat.
Proof.
  destruct (rbacConfigFromAuthPolicy_rules_kept Cases.crowdedLister Sample.backend
              Cases.first eq_refl)
    as (cfg & Hcfg & _ & Hrules & Hsize).
  exists cfg. split; [exact Hcfg|]. split; [|exact Hsize].
  apply (Hrules 0%nat Sample.toolsRule). reflexivity.
Defined.

(** With the first policy in force, the listed caller may call "add" and
    may not call "echo"; another caller may not call "add". *)
Lemma rbacConfigFromAuthPolicy_allows_witness :
  exists cfg,
    rbacConfigFromAuthPolicy Cases.crowdedLister Sample.backend = Ok cfg
    /\ rbacAllows cfg (Sample.toolsCall "default/b" "add") = true
    /\ rbacAllows cfg (Sample.toolsCall "default/b" "echo") = false
    /\ rbacAllows cfg (Sample.toolsCall "default/c" "add") = false.
Proof.
  destruct (rbacConfigFromAuthPolicy_allows Cases.crowdedLister Sample.backend
              (Some Cases.first) eq_refl)
    as (cfg & Hcfg & Hallows).
  assert (Hdenied : forall caller tool,
            (caller <> "spiffe://td/ns/default/sa/a" /\ caller <> "default/b")
            \/ (tool <> "add" /\ tool <> "getTinyImage") ->
            rbacAllows cfg (Sample.toolsCall caller tool) = false).
  { intros caller tool Hno. apply not_true_is_false. intros H.
    apply Hallows in H
      as [[H _]|[H|[(m & Hm & Hin)|(ap & i & rule & Hap & Hi & Hid & _ & Htool)]]].
    - discriminate H.
    - discriminate H.
    - injection Hm as <-. not_listed Hin.
    - injection Hap as <-.
      destruct i as [|i]; [|by destruct i]. injection Hi as <-.
      destruct Hid as (v & Hv & Hin). injection Hv as <-.
      destruct Htool as (t & Htin & Ht). injection Ht as <-.
      simpl in Hin, Htin.
      destruct Hno as [[H1 H2]|[H1 H2]].
      + apply elem_of_cons in Hin as [Hin|Hin]; [done|].
        apply list_elem_of_singleton in Hin. done.
      + apply elem_of_cons in Htin as [Htin|Htin]; [done|].
        apply list_elem_of_singleton in Htin. done. }
  exists cfg. split; [exact Hcfg|]. split; [|split].
  - apply Hallows. right. right. right.
    exists Cases.first, 0%nat, Sample.toolsRule.
    split; [reflexivity|]. split; [reflexivity|]. split; [|split].
    + exists "default/b". split; [reflexivity|]. simpl. right. left.
    + reflexivity.
    + exists "add". split; [simpl; left | reflexivity].
  - apply Hdenied. right. by split.
  - apply Hdenied. left. by split.
Defined.

(* ===================================================================== *)
(** ** More on the connectivity compiler                                 *)
(* ===================================================================== *)

Section ClusterLists.

Context {ClusterLoadAssignment : Type}.
Variable createClusterLoadAssignment : string -> string -> Z -> ClusterLoadAssignment.
Variable anypb_New : UpstreamTlsContext -> result Any.

(** X9. The cluster list is built only if every backend converts, and then
    holds exactly the backends' clusters, one per backend, in order. *)
Theorem buildClustersFromBackends_Ok (backends : list Backend)
    (clusters : list (Cluster ClusterLoadAssignment)) :
  buildClustersFromBackends createClusterLoadAssignment anypb_New backends = Ok clusters
  <-> Forall2
        (fun backend cluster =>
           convertBackendToCluster createClusterLoadAssignment anypb_New backend
           = Ok cluster)
        backends clusters.
Proof.
  revert clusters. induction backends as [|b rest IH]; intros clusters; simpl.
  - split.
    + intros [= <-]. constructor.
    + intros H. by apply Forall2_nil_inv_l in H as ->.
  - destruct (convertBackendToCluster _ _ b) as [c|e] eqn:Hb.
    + destruct (buildClustersFromBackends _ _ rest) as [cs|e] eqn:Hrest.
      * split.
        -- intros [= <-]. constructor; [done|]. by apply IH.
        -- intros H. apply Forall2_cons_inv_l in H as (c' & cs' & Hc & Hcs & ->).
           apply IH in Hcs. congruence.
      * split; [done|].
        intros H. apply Forall2_cons_inv_l in H as (c' & cs' & Hc & Hcs & ->).
        apply IH in Hcs. done.
    + split; [done|].
      intros H. apply Forall2_cons_inv_l in H as (c' & cs' & Hc & Hcs & ->).
      congruence.
Qed.

(** X10. The list fails with the error of the first backend that does not
    convert; nothing of the backends before or after it is returned. *)
Theorem buildClustersFromBackends_Err (backends : list Backend) (err : string) :
  buildClustersFromBackends createClusterLoadAssignment anypb_New backends = Err err
  <-> exists before backend after,
        backends = before ++ backend :: after
        /\ (forall b, b ∈ before ->
              exists cluster,
                convertBackendToCluster createClusterLoadAssignment anypb_New b
                = Ok cluster)
        /\ convertBackendToCluster createClusterLoadAssignment anypb_New backend
           = Err err.
Proof.
  induction backends as [|b rest IH]; simpl.
  - split; [done|]. intros ([|??] & ? & ? & ? & _); done.
  - destruct (convertBackendToCluster _ _ b) as [c|e] eqn:Hb.
    + destruct (buildClustersFromBackends _ _ rest) as [cs|e] eqn:Hrest.
      * split; [done|].
        intros ([|b' before] & backend & after & Hl & Hbefore & Herr).
        -- injection Hl as -> _. congruence.
        -- injection Hl as -> ->.
           assert (Hno : Ok cs = @Err (list (Cluster ClusterLoadAssignment)) err);
             [|discriminate Hno].
           apply IH. exists before, backend, after. split; [done|]. split; [|done].
           intros x Hx. apply Hbefore. by right.
      * split.
        -- intros [= <-]. destruct (proj1 IH eq_refl)
             as (before & backend & after & -> & Hbefore & Herr).
           exists (b :: before), backend, after. split; [done|]. split; [|done].
           intros x Hx. apply elem_of_cons in Hx as [->|Hx]; eauto.
        -- intros ([|b' before] & backend & after & Hl & Hbefore & Herr).
           ++ injection Hl as -> _. congruence.
           ++ injection Hl as -> ->. apply IH.
              exists before, backend, after. split; [done|]. split; [|done].
              intros x Hx. apply Hbefore. by right.
    + split.
      * intros [= <-]. exists [], b, rest. split; [done|]. split; [|done].
        intros x Hx. by apply elem_of_nil in Hx.
      * intros ([|b' before] & backend & after & Hl & Hbefore & Herr).
        -- injection Hl as -> _. congruence.
        -- injection Hl as -> _.
           destruct (Hbefore b') as [c Hc]; [left|]. congruence.
Qed.

End ClusterLists.

(** X11. A backend with a service name is an in-cluster backend whatever
    else it carries: its cluster does not depend on the hostname nor on
    the TLS packer, and the conversion cannot fail. *)
Theorem convertBackendToCluster_in_cluster {ClusterLoadAssignment : Type}
    (createClusterLoadAssignment : string -> string -> Z -> ClusterLoadAssignment)
    (anypb_New1 anypb_New2 : UpstreamTlsContext -> result Any)
    (backend : Backend) (hostname : string) :
  ServiceName backend <> "" ->
  exists cluster,
    convertBackendToCluster createClusterLoadAssignment anypb_New1 backend = Ok cluster
    /\ convertBackendToCluster createClusterLoadAssignment anypb_New2
         {| Namespace := Namespace backend; Name := Name backend;
            ServiceName := ServiceName backend; Hostname := hostname;
            Port := Port backend |}
       = Ok cluster
    /\ cluster_TransportSocket cluster = None.
Proof.
  intros Hsvc. unfold convertBackendToCluster. cbn [ServiceName Namespace Name Port].
  rewrite bool_decide_eq_true_2 by done. by eexists.
Qed.

Lemma convertBackendToCluster_in_cluster_witness :
  exists cluster,
    convertBackendToCluster Sample.createClusterLoadAssignment Sample.anypb_New
      Sample.backend = Ok cluster
    /\ convertBackendToCluster Sample.createClusterLoadAssignment (fun _ => Err "no")
         {| Namespace := "ns"; Name := "svc"; ServiceName := "svc";
            Hostname := "api.example.com"; Port := 8080 |}
       = Ok cluster
    /\ cluster_TransportSocket cluster = None.
Proof.
  apply (convertBackendToCluster_in_cluster Sample.createClusterLoadAssignment
           Sample.anypb_New (fun _ => Err "no") Sample.backend "api.example.com").
  discriminate.
Defined.

(* ===================================================================== *)
(** ** Resolving a backend reference                                     *)
(* ===================================================================== *)

Section FetchBackendProperties.

Context {Service ReferenceGrantLister : Type}.
Variable allowed :
  ReferenceGrantFrom -> ReferenceGrantTo -> string -> ReferenceGrantLister -> bool.
Variable namespace : string.
Variable backendRef : BackendRef.
Variable backendLister : BackendLister.
Variable serviceLister : ServiceLister Service.
Variable referenceGrantLister : ReferenceGrantLister.

Lemma kindAccepted_dec : (kindAccepted backendRef) \/ exists kind,
  bref_Kind backendRef = Some kind /\ kind <> "Backend".
Proof.
  unfold kindAccepted. destruct (bref_Kind backendRef) as [kind|]; [|by left; left].
  destruct (decide (kind = "Backend")) as [->|Hk]; [by left; right|].
  right. by exists kind.
Qed.

Lemma fetchBackend_kind_accepted :
  (kindAccepted backendRef) ->
  fetchBackend allowed namespace backendRef backendLister serviceLister referenceGrantLister
  = if bool_decide (refNamespace namespace backendRef <> namespace)
       && negb (grantFor allowed namespace backendRef referenceGrantLister)
    then inr {| Reason := "RefNotPermitted"; Message := "permission error" |}
    else
      match backendLister (refNamespace namespace backendRef) (bref_Name backendRef) with
      | Err err =>
          inr {| Reason := "BackendNotFound";
                 Message := "failed to get Backend " +:+ refNamespace namespace backendRef
                              +:+ "/" +:+ bref_Name backendRef +:+ ": " +:+ err |}
      | Ok backend =>
          if bool_decide (ServiceName backend <> "") then
            match serviceLister (refNamespace namespace backendRef) (ServiceName backend) with
            | Err err =>
                inr {| Reason := "BackendNotFound";
                       Message := "failed to get Backend service "
                                    +:+ refNamespace namespace backendRef +:+ "/"
                                    +:+ ServiceName backend +:+ ": " +:+ err |}
            | Ok _ => inl backend
            end
          else inl backend
      end.
Proof.
  intros [Hk|Hk]; unfold fetchBackend, grantFor, refNamespace; rewrite Hk; [done|].
  by rewrite bool_decide_eq_false_2 by (intros H; by apply H).
Qed.

Lemma fetchBackend_kind_rejected kind :
  bref_Kind backendRef = Some kind -> kind <> "Backend" ->
  fetchBackend allowed namespace backendRef backendLister serviceLister referenceGrantLister
  = inr {| Reason := "InvalidKind"; Message := "unsupported backend kind: " +:+ kind |}.
Proof.
  intros Hk Hne. unfold fetchBackend. rewrite Hk.
  by rewrite bool_decide_eq_true_2.
Qed.

Lemma permitted_test :
  bool_decide (refNamespace namespace backendRef <> namespace)
    && negb (grantFor allowed namespace backendRef referenceGrantLister) = false
  <-> (permitted allowed namespace backendRef referenceGrantLister).
Proof.
  unfold permitted. rewrite andb_false_iff, negb_false_iff, bool_decide_eq_false.
  split; (intros [H|H]; [left|by right]).
  - by destruct (decide (refNamespace namespace backendRef = namespace)).
  - intros Hne. by apply Hne.
Qed.

(** X12. A reference resolves to a backend exactly when its kind is unset
    or "Backend", it stays in the route's namespace or a grant allows the
    crossing, the backend exists in the resolved namespace, and the
    backend's service, if it names one, exists there too. *)
Theorem fetchBackend_success (backend : Backend) :
  fetchBackend allowed namespace backendRef backendLister serviceLister referenceGrantLister
  = inl backend
  <-> kindAccepted backendRef
      /\ permitted allowed namespace backendRef referenceGrantLister
      /\ backendLister (refNamespace namespace backendRef) (bref_Name backendRef) = Ok backend
      /\ (ServiceName backend = ""
          \/ exists svc,
               serviceLister (refNamespace namespace backendRef) (ServiceName backend)
               = Ok svc).
Proof.
  destruct kindAccepted_dec as [Hk|(kind & Hk & Hne)].
  - rewrite (fetchBackend_kind_accepted Hk).
    destruct (bool_decide _ && negb _) eqn:Hperm.
    + split; [done|]. intros (_ & Hp & _). apply permitted_test in Hp. congruence.
    + apply permitted_test in Hperm.
      destruct (backendLister _ _) as [b|err]; [|split; [done | by intros (_ & _ & ? & _)]].
      case_bool_decide as Hsvc.
      * destruct (serviceLister _ _) as [svc|err] eqn:Hs.
        -- split.
           ++ intros [= <-]. repeat split; try done. right. by exists svc.
           ++ by intros (_ & _ & [= <-] & _).
        -- split; [done|]. intros (_ & _ & [= <-] & [Hempty|[svc Hsvc']]); [done|].
           congruence.
      * split.
        -- intros [= <-]. repeat split; try done. left.
           by destruct (decide (ServiceName b = "")); [|destruct Hsvc].
        -- by intros (_ & _ & [= <-] & _).
  - rewrite (fetchBackend_kind_rejected kind Hk Hne).
    split; [done|]. intros ([Hn|Hb] & _); congruence.
Qed.

(** X13. The failures, each with its cause.  "InvalidKind" is reported
    exactly for a kind other than "Backend" (whatever the listers hold),
    "RefNotPermitted" exactly for an accepted kind with a namespace
    crossing that no grant allows, "BackendNotFound" exactly when kind and
    crossing pass but the backend, or the service it names, is missing. *)
Theorem fetchBackend_failure (err : ControllerError) :
  fetchBackend allowed namespace backendRef backendLister serviceLister referenceGrantLister
  = inr err
  <-> (exists kind,
         bref_Kind backendRef = Some kind /\ kind <> "Backend"
         /\ err = {| Reason := "InvalidKind";
                     Message := "unsupported backend kind: " +:+ kind |})
      \/ (kindAccepted backendRef
          /\ ~ permitted allowed namespace backendRef referenceGrantLister
          /\ err = {| Reason := "RefNotPermitted"; Message := "permission error" |})
      \/ (kindAccepted backendRef
          /\ permitted allowed namespace backendRef referenceGrantLister
          /\ exists e,
               backendLister (refNamespace namespace backendRef) (bref_Name backendRef)
               = Err e
               /\ err = {| Reason := "BackendNotFound";
                           Message := "failed to get Backend "
                                        +:+ refNamespace namespace backendRef +:+ "/"
                                        +:+ bref_Name backendRef +:+ ": " +:+ e |})
      \/ (kindAccepted backendRef
          /\ permitted allowed namespace backendRef referenceGrantLister
          /\ exists backend e,
               backendLister (refNamespace namespace backendRef) (bref_Name backendRef)
               = Ok backend
               /\ ServiceName backend <> ""
               /\ serviceLister (refNamespace namespace backendRef) (ServiceName backend)
                  = Err e
               /\ err = {| Reason := "BackendNotFound";
                           Message := "failed to get Backend service "
                                        +:+ refNamespace namespace backendRef +:+ "/"
                                        +:+ ServiceName backend +:+ ": " +:+ e |}).
Proof.
  destruct kindAccepted_dec as [Hk|(kind & Hk & Hne)].
  - assert (Hnokind : forall k, bref_Kind backendRef = Some k -> k <> "Backend" -> False).
    { intros k Hs Hn. destruct Hk as [Hk|Hk]; congruence. }
    rewrite (fetchBackend_kind_accepted Hk).
    destruct (bool_decide _ && negb _) eqn:Hperm.
    + assert (Hnp : ~ permitted allowed namespace backendRef referenceGrantLister).
      { intros Hp. apply permitted_test in Hp. congruence. }
      split.
      * intros [= <-]. right. left. by repeat split.
      * intros [(k & Hs & Hn & _)|[(_ & _ & ->)|[(_ & Hp & _)|(_ & Hp & _)]]];
          [by destruct (Hnokind k) | done | by destruct Hnp | by destruct Hnp].
    + apply permitted_test in Hperm.
      destruct (backendLister _ _) as [b|e] eqn:Hb.
      * case_bool_decide as Hsvc.
        -- destruct (serviceLister _ _) as [svc|e] eqn:Hs.
           ++ split; [done|].
              intros [(k & Hs' & Hn & _)|[(_ & Hp & _)|[(_ & _ & e & ? & _)
                      |(_ & _ & b' & e & [= <-] & _ & He & _)]]];
                [by destruct (Hnokind k) | done | done | congruence].
           ++ split.
              ** intros [= <-]. right. right. right. repeat split; try done.
                 by exists b, e.
              ** intros [(k & Hs' & Hn & _)|[(_ & Hp & _)|[(_ & _ & e' & ? & _)
                         |(_ & _ & b' & e' & [= <-] & _ & He & ->)]]];
                   [by destruct (Hnokind k) | done | done | congruence].
        -- split; [done|].
           intros [(k & Hs' & Hn & _)|[(_ & Hp & _)|[(_ & _ & e & ? & _)
                   |(_ & _ & b' & e & [= <-] & Hne & _)]]];
             [by destruct (Hnokind k) | done | done |].
           by destruct Hsvc.
      * split.
        -- intros [= <-]. right. right. left. repeat split; try done. by exists e.
        -- intros [(k & Hs' & Hn & _)|[(_ & Hp & _)|[(_ & _ & e' & [= <-] & ->)
                   |(_ & _ & b' & e' & ? & _)]]];
             [by destruct (Hnokind k) | done | done | done].
  - assert (Hnk : ~ kindAccepted backendRef) by (intros [H|H]; congruence).
    rewrite (fetchBackend_kind_rejected kind Hk Hne). split.
    + intros [= <-]. left. by exists kind.
    + intros [(k & Hs & _ & ->)|[(Hka & _)|[(Hka & _)|(Hka & _)]]];
        [congruence | by destruct Hnk..].
Qed.

End FetchBackendProperties.

(** X14. Defaults of a reference.  A reference without a kind is treated as
    one of kind "Backend"; a reference without a namespace, or naming the
    route's own namespace, is resolved there without consulting any
    grant. *)
Theorem fetchBackend_defaults {Service ReferenceGrantLister : Type}
    (allowed1 allowed2 :
       ReferenceGrantFrom -> ReferenceGrantTo -> string -> ReferenceGrantLister -> bool)
    (namespace name : string) (group : option string)
    (backendLister : BackendLister) (serviceLister : ServiceLister Service)
    (grants1 grants2 : ReferenceGrantLister) :
  fetchBackend allowed1 namespace
    {| bref_Group := group; bref_Kind := None; bref_Name := name; bref_Namespace := None |}
    backendLister serviceLister grants1
  = fetchBackend allowed2 namespace
      {| bref_Group := group; bref_Kind := Some "Backend"; bref_Name := name;
         bref_Namespace := Some namespace |}
      backendLister serviceLister grants2.
Proof.
  unfold fetchBackend. cbn [bref_Kind bref_Namespace bref_Name].
  rewrite (bool_decide_eq_false_2 ("Backend" <> "Backend")) by (intros H; by apply H).
  by rewrite (bool_decide_eq_false_2 (namespace <> namespace)) by (intros H; by apply H).
Qed.

(* ===================================================================== *)
(** ** More on the distribution server                                   *)
(* ===================================================================== *)

Lemma ltb_Lt (a b : string) : String.ltb a b = true <-> String.compare a b = Lt.
Proof. unfold String.ltb. destruct (String.compare a b); split; congruence. Qed.

Lemma compare_refl (a : string) : String.compare a a = Eq.
Proof.
  induction a as [|c a IH]; [done|]. simpl.
  unfold Ascii.compare. by rewrite N.compare_refl.
Qed.

Lemma ltb_irrefl (a : string) : String.ltb a a = false.
Proof. unfold String.ltb. by rewrite compare_refl. Qed.

Lemma ltb_asym (a b : string) : a <> b -> String.ltb a b = negb (String.ltb b a).
Proof.
  intros Hne. unfold String.ltb. rewrite (String.compare_antisym a b).
  destruct (String.compare b a) eqn:Hc; try done.
  apply String.compare_eq_iff in Hc. congruence.
Qed.

Lemma ltb_trans (a b c : string) :
  String.ltb a b = true -> String.ltb b c = true -> String.ltb a c = true.
Proof.
  rewrite !ltb_Lt. intros Hab Hbc.
  assert (Hle : String.le a c).
  { trans b; unfold String.le, String.leb; [by rewrite Hab | by rewrite Hbc]. }
  unfold String.le, String.leb in Hle.
  destruct (String.compare a c) eqn:Hac; [|done|done].
  apply String.compare_eq_iff in Hac as ->.
  rewrite String.compare_antisym, Hbc in Hab. discriminate Hab.
Qed.

Lemma interfaceLess_docker0 (b : string) : interfaceLess "docker0" b = true.
Proof. done. Qed.

(** X15. The order in which interfaces are tried.  The comparison is
    transitive, and on two different names it orders them one way and
    not the other; "docker0" comes before every other name and "eth0"
    before every name but "docker0"; the remaining names go by byte
    order.  It is not irreflexive: "docker0" and "eth0", and only they,
    are less than themselves. *)
Theorem interfaceLess_order :
  (forall a b c,
      interfaceLess a b = true -> interfaceLess b c = true -> interfaceLess a c = true)
  /\ (forall a b, a <> b -> interfaceLess a b = negb (interfaceLess b a))
  /\ (forall b, interfaceLess "docker0" b = true)
  /\ (forall b, b <> "docker0" -> interfaceLess "eth0" b = true)
  /\ (forall a b,
        a <> "docker0" -> a <> "eth0" -> b <> "docker0" -> b <> "eth0" ->
        interfaceLess a b = String.ltb a b)
  /\ (forall a, interfaceLess a a = true <-> a = "docker0" \/ a = "eth0").
Proof.
  unfold interfaceLess.
  split; [|split; [|split; [|split; [|split]]]].
  - intros a b c.
    repeat case_bool_decide; subst; try done. apply ltb_trans.
  - intros a b Hne.
    repeat case_bool_decide; subst; try done. by apply ltb_asym.
  - done.
  - intros b Hb. by repeat case_bool_decide.
  - intros a b ????. by repeat case_bool_decide.
  - intros a. split.
    + repeat case_bool_decide; subst; auto. by rewrite ltb_irrefl.
    + intros [->| ->]; by repeat case_bool_decide.
Qed.

Section AddressSelection.

Context {IP : Type}.
Variables To4 IsLinkLocalUnicast IsLoopback : IP -> bool.
Variable IP_String : IP -> string.
Variable sort_Slice :
  (Interface IP -> Interface IP -> bool) -> list (Interface IP) -> list (Interface IP).

Lemma firstSuitable_Some addrs s :
  firstSuitable To4 IsLinkLocalUnicast IsLoopback IP_String addrs = Some s ->
  exists ip,
    Addr_IPNet ip ∈ addrs
    /\ To4 ip = true /\ IsLinkLocalUnicast ip = false /\ IsLoopback ip = false
    /\ s = IP_String ip.
Proof.
  induction addrs as [|addr rest IH]; [done|]. simpl.
  destruct (suitable _ _ _ _ addr) as [s'|] eqn:Hs.
  - intros [= ->]. destruct addr as [ip|]; [|done]. simpl in Hs.
    destruct (To4 ip) eqn:H4, (IsLinkLocalUnicast ip) eqn:Hl, (IsLoopback ip) eqn:Hb;
      try done.
    injection Hs as <-. exists ip. repeat split; try done. left.
  - intros H. destruct (IH H) as (ip & Hin & Hrest). exists ip. split; [by right|done].
Qed.

Lemma firstSuitable_None addrs :
  firstSuitable To4 IsLinkLocalUnicast IsLoopback IP_String addrs = None
  <-> forall addr, addr ∈ addrs ->
        suitable To4 IsLinkLocalUnicast IsLoopback IP_String addr = None.
Proof.
  induction addrs as [|addr rest IH]; simpl.
  - split; [|done]. intros _ addr H. by apply elem_of_nil in H.
  - destruct (suitable _ _ _ _ addr) as [s'|] eqn:Hs.
    + split; [done|]. intros H. rewrite (H addr) in Hs; [done|left].
    + rewrite IH. split.
      * intros H a Ha. apply elem_of_cons in Ha as [->|Ha]; auto.
      * intros H a Ha. apply H. by right.
Qed.

Lemma scanInterfaces_Ok interfaces s :
  scanInterfaces To4 IsLinkLocalUnicast IsLoopback IP_String interfaces = Ok s
  <-> exists before iface after,
        interfaces = before ++ iface :: after
        /\ addressOf To4 IsLinkLocalUnicast IsLoopback IP_String iface = Some s
        /\ forall x, x ∈ before ->
             addressOf To4 IsLinkLocalUnicast IsLoopback IP_String x = None.
Proof.
  induction interfaces as [|i rest IH]; simpl.
  - split; [done|]. intros ([|??] & ? & ? & ? & _); done.
  - destruct (addressOf _ _ _ _ i) as [s'|] eqn:Hi.
    + split.
      * intros [= ->]. exists [], i, rest. split; [done|]. split; [done|].
        intros x Hx. by apply elem_of_nil in Hx.
      * intros ([|b before] & iface & after & Hl & Hs & Hbefore).
        -- injection Hl as -> _. congruence.
        -- injection Hl as -> _. rewrite Hbefore in Hi; [done|left].
    + rewrite IH. split.
      * intros (before & iface & after & -> & Hs & Hbefore).
        exists (i :: before), iface, after. split; [done|]. split; [done|].
        intros x Hx. apply elem_of_cons in Hx as [->|Hx]; auto.
      * intros ([|b before] & iface & after & Hl & Hs & Hbefore).
        -- injection Hl as -> _. congruence.
        -- injection Hl as -> ->. exists before, iface, after.
           split; [done|]. split; [done|]. intros x Hx. apply Hbefore. by right.
Qed.

Lemma scanInterfaces_Err interfaces err :
  scanInterfaces To4 IsLinkLocalUnicast IsLoopback IP_String interfaces = Err err
  <-> err = "no suitable global unicast IPv4 address found on any active non-loopback interface"
      /\ forall x, x ∈ interfaces ->
           addressOf To4 IsLinkLocalUnicast IsLoopback IP_String x = None.
Proof.
  induction interfaces as [|i rest IH]; simpl.
  - split.
    + intros [= <-]. split; [done|]. intros x Hx. by apply elem_of_nil in Hx.
    + by intros [-> _].
  - destruct (addressOf _ _ _ _ i) as [s'|] eqn:Hi.
    + split; [done|]. intros [_ H]. rewrite H in Hi; [done|left].
    + rewrite IH. split; intros [-> H]; (split; [done|]).
      * intros x Hx. apply elem_of_cons in Hx as [->|Hx]; auto.
      * intros x Hx. apply H. by right.
Qed.

(** X16. The address returned is sound: it is the printed form of an IPv4
    address that is neither link-local nor loopback, listed on an
    interface of the host that is up and is not a loopback interface. *)
Theorem getControlPlaneAddress_sound (interfaces : list (Interface IP)) (address : string) :
  sort_Slice (fun i j => interfaceLess (if_Name i) (if_Name j)) interfaces ≡ₚ interfaces ->
  getControlPlaneAddress To4 IsLinkLocalUnicast IsLoopback IP_String sort_Slice
    (Ok interfaces) = Ok address ->
  exists iface addrs ip,
    iface ∈ interfaces
    /\ if_FlagUp iface = true /\ if_FlagLoopback iface = false
    /\ if_Addrs iface = Ok addrs
    /\ Addr_IPNet ip ∈ addrs
    /\ To4 ip = true /\ IsLinkLocalUnicast ip = false /\ IsLoopback ip = false
    /\ address = IP_String ip.
Proof.
  intros Hperm. simpl. intros H.
  apply scanInterfaces_Ok in H as (before & iface & after & Hl & Hs & _).
  assert (Hin : iface ∈ interfaces).
  { rewrite <- Hperm, Hl. apply elem_of_app. right. left. }
  unfold addressOf in Hs.
  destruct (if_FlagUp iface) eqn:Hup, (if_FlagLoopback iface) eqn:Hlb; try done.
  simpl in Hs. destruct (if_Addrs iface) as [addrs|e] eqn:Haddrs; [|done].
  apply firstSuitable_Some in Hs as (ip & Hip & H4 & Hll & Hlo & ->).
  by exists iface, addrs, ip.
Qed.

(** X17. The selection fails exactly when listing the interfaces fails or
    no interface offers an address: each one is down, or a loopback
    interface, or cannot list its addresses, or lists no suitable one. *)
Theorem getControlPlaneAddress_fails (net_Interfaces : result (list (Interface IP)))
    (err : string) :
  (forall interfaces,
      net_Interfaces = Ok interfaces ->
      sort_Slice (fun i j => interfaceLess (if_Name i) (if_Name j)) interfaces
        ≡ₚ interfaces) ->
  (getControlPlaneAddress To4 IsLinkLocalUnicast IsLoopback IP_String sort_Slice
     net_Interfaces = Err err
   <-> net_Interfaces = Err err
       \/ exists interfaces,
            net_Interfaces = Ok interfaces
            /\ err = "no suitable global unicast IPv4 address found on any active non-loopback interface"
            /\ forall iface, iface ∈ interfaces ->
                 if_FlagUp iface = false
                 \/ if_FlagLoopback iface = true
                 \/ (exists e, if_Addrs iface = Err e)
                 \/ exists addrs,
                      if_Addrs iface = Ok addrs
                      /\ forall addr, addr ∈ addrs ->
                           suitable To4 IsLinkLocalUnicast IsLoopback IP_String addr
                           = None).
Proof.
  intros Hperm.
  assert (Hnone : forall iface,
    addressOf To4 IsLinkLocalUnicast IsLoopback IP_String iface = None
    <-> if_FlagUp iface = false
        \/ if_FlagLoopback iface = true
        \/ (exists e, if_Addrs iface = Err e)
        \/ exists addrs,
             if_Addrs iface = Ok addrs
             /\ forall addr, addr ∈ addrs ->
                  suitable To4 IsLinkLocalUnicast IsLoopback IP_String addr = None).
  { intros iface. unfold addressOf.
    destruct (if_FlagUp iface), (if_FlagLoopback iface); simpl;
      try (split; [intros _; by (left + (right; left))|done]).
    destruct (if_Addrs iface) as [addrs|e].
    - rewrite firstSuitable_None. split.
      + intros H. right. right. right. by exists addrs.
      + intros [?|[?|[[e ?]|(addrs' & [= <-] & H)]]]; done.
    - split; [|done]. intros _. right. right. left. by exists e. }
  destruct net_Interfaces as [interfaces|e]; simpl.
  - rewrite scanInterfaces_Err. specialize (Hperm interfaces eq_refl). split.
    + intros [-> H]. right. exists interfaces. split; [done|]. split; [done|].
      intros iface Hin. apply Hnone, H. by rewrite Hperm.
    + intros [?|(l & [= <-] & -> & H)]; [done|]. split; [done|].
      intros x Hx. apply Hnone, H. by rewrite <- Hperm.
  - split.
    + intros [= <-]. by left.
    + intros [[= <-]|(l & ? & _)]; done.
Qed.

(** X18. Preference.  Once sorted, the interfaces are tried in order, so no
    interface that offers an address comes before the chosen one; in
    particular an interface named "docker0" that offers an address is
    chosen whenever it is the only one of that name. *)
Theorem getControlPlaneAddress_prefers (interfaces : list (Interface IP))
    (address : string) :
  sort_Slice (fun i j => interfaceLess (if_Name i) (if_Name j)) interfaces ≡ₚ interfaces ->
  sortedBy (fun i j => interfaceLess (if_Name i) (if_Name j))
    (sort_Slice (fun i j => interfaceLess (if_Name i) (if_Name j)) interfaces) ->
  getControlPlaneAddress To4 IsLinkLocalUnicast IsLoopback IP_String sort_Slice
    (Ok interfaces) = Ok address ->
  exists chosen,
    chosen ∈ interfaces
    /\ addressOf To4 IsLinkLocalUnicast IsLoopback IP_String chosen = Some address
    /\ (forall other,
          other ∈ interfaces ->
          addressOf To4 IsLinkLocalUnicast IsLoopback IP_String other <> None ->
          other = chosen \/ interfaceLess (if_Name other) (if_Name chosen) = false)
    /\ (forall docker,
          docker ∈ interfaces ->
          if_Name docker = "docker0" ->
          addressOf To4 IsLinkLocalUnicast IsLoopback IP_String docker <> None ->
          if_Name chosen = "docker0").
Proof.
  intros Hperm Hsorted. simpl. intros H.
  apply scanInterfaces_Ok in H as (before & chosen & after & Hl & Hs & Hbefore).
  assert (Hin : chosen ∈ interfaces).
  { rewrite <- Hperm, Hl. apply elem_of_app. right. left. }
  assert (Hpref : forall other,
            other ∈ interfaces ->
            addressOf To4 IsLinkLocalUnicast IsLoopback IP_String other <> None ->
            other = chosen \/ interfaceLess (if_Name other) (if_Name chosen) = false).
  { intros other Hother Haddr.
    rewrite <- Hperm, Hl in Hother.
    apply elem_of_app in Hother as [Hb|Ha]; [by destruct Haddr; apply Hbefore|].
    apply elem_of_cons in Ha as [->|Ha]; [by left|]. right.
    apply list_elem_of_lookup in Ha as [k Hk].
    apply (Hsorted (length before) (length before + S k)%nat chosen other); [lia|..].
    - rewrite Hl. by rewrite list_lookup_middle.
    - rewrite Hl. rewrite lookup_app_r by lia.
      replace (length before + S k - length before)%nat with (S k) by lia. done. }
  exists chosen. split; [done|]. split; [done|]. split; [done|].
  intros docker Hd Hname Haddr.
  destruct (Hpref docker Hd Haddr) as [->|Hless]; [done|].
  rewrite Hname in Hless.
  by rewrite interfaceLess_docker0 in Hless.
Qed.

End AddressSelection.

Lemma sample_sort_perm :
  Cases.sort_Slice (fun i j => interfaceLess (if_Name i) (if_Name j))
    [Cases.lo; Cases.eth0; Cases.downOnly; Cases.docker0]
  ≡ₚ [Cases.lo; Cases.eth0; Cases.downOnly; Cases.docker0].
Proof.
  change ([Cases.docker0; Cases.eth0; Cases.lo; Cases.downOnly]
          ≡ₚ [Cases.lo; Cases.eth0; Cases.downOnly; Cases.docker0]).
  rewrite (Permutation_cons_append [Cases.eth0; Cases.lo; Cases.downOnly] Cases.docker0).
  simpl. apply perm_swap.
Qed.

Lemma sample_sort_sorted :
  sortedBy (fun i j => interfaceLess (if_Name i) (if_Name j))
    (Cases.sort_Slice (fun i j => interfaceLess (if_Name i) (if_Name j))
       [Cases.lo; Cases.eth0; Cases.downOnly; Cases.docker0]).
Proof.
  change (sortedBy (fun i j => interfaceLess (if_Name i) (if_Name j))
            [Cases.docker0; Cases.eth0; Cases.lo; Cases.downOnly]).
  intros [|[|[|[|i]]]] [|[|[|[|j]]]] x y Hij Hx Hy;
    try lia; simpl in Hx, Hy; try done;
    injection Hx as <-; injection Hy as <-; reflexivity.
Qed.

(** A host with lo, eth0, a down wlan0 and docker0: the address is
    docker0's. *)
Lemma getControlPlaneAddress_sound_witness :
  exists iface addrs ip,
    iface ∈ [Cases.lo; Cases.eth0; Cases.downOnly; Cases.docker0]
    /\ if_FlagUp iface = true /\ if_FlagLoopback iface = false
    /\ if_Addrs iface = Ok addrs
    /\ Addr_IPNet ip ∈ addrs
    /\ Cases.ip_To4 ip = true /\ Cases.ip_IsLinkLocalUnicast ip = false
    /\ Cases.ip_IsLoopback ip = false
    /\ "172.17.0.1" = Cases.ip_String ip.
Proof.
  apply (getControlPlaneAddress_sound Cases.ip_To4 Cases.ip_IsLinkLocalUnicast
           Cases.ip_IsLoopback Cases.ip_String Cases.sort_Slice
           [Cases.lo; Cases.eth0; Cases.downOnly; Cases.docker0] "172.17.0.1").
  - exact sample_sort_perm.
  - reflexivity.
Defined.

(** A host with only lo and a down wlan0 has no address to offer. *)
Lemma getControlPlaneAddress_fails_witness :
  Cases.address [Cases.lo; Cases.downOnly]
  = Err "no suitable global unicast IPv4 address found on any active non-loopback interface".
Proof.
  apply (getControlPlaneAddress_fails Cases.ip_To4 Cases.ip_IsLinkLocalUnicast
           Cases.ip_IsLoopback Cases.ip_String Cases.sort_Slice
           (Ok [Cases.lo; Cases.downOnly])).
  - intros interfaces [= <-]. reflexivity.
  - right. exists [Cases.lo; Cases.downOnly]. split; [reflexivity|].
    split; [reflexivity|].
    intros iface Hin. apply elem_of_cons in Hin as [->|Hin].
    + right. left. reflexivity.
    + apply list_elem_of_singleton in Hin as ->. left. reflexivity.
Defined.

Lemma getControlPlaneAddress_prefers_witness :
  exists chosen,
    chosen ∈ [Cases.lo; Cases.eth0; Cases.downOnly; Cases.docker0]
    /\ addressOf Cases.ip_To4 Cases.ip_IsLinkLocalUnicast Cases.ip_IsLoopback
         Cases.ip_String chosen = Some "172.17.0.1"
    /\ if_Name chosen = "docker0".
Proof.
  destruct (getControlPlaneAddress_prefers Cases.ip_To4 Cases.ip_IsLinkLocalUnicast
              Cases.ip_IsLoopback Cases.ip_String Cases.sort_Slice
              [Cases.lo; Cases.eth0; Cases.downOnly; Cases.docker0] "172.17.0.1"
              sample_sort_perm sample_sort_sorted eq_refl)
    as (chosen & Hin & Haddr & _ & Hdocker).
  exists chosen. split; [exact Hin|]. split; [exact Haddr|].
  apply (Hdocker Cases.docker0).
  - do 3 right. left.
  - reflexivity.
  - discriminate.
Defined.

Section Interleavings.

Context {Resources Snapshot SnapshotCache : Type}.
Variable NewSnapshot : string -> Resources -> result Snapshot.
Variable SetSnapshot : SnapshotCache -> string -> Snapshot -> SnapshotCache * option string.

Lemma elem_of_insert_inv {A} (l : list A) i x y :
  y ∈ <[i:=x]> l -> y = x \/ y ∈ l.
Proof.
  revert i. induction l as [|a l IH]; intros i Hy; [by right|].
  destruct i as [|i]; simpl in Hy.
  - apply elem_of_cons in Hy as [->|Hy]; [by left|]. right. by right.
  - apply elem_of_cons in Hy as [->|Hy]; [right; left|].
    destruct (IH i Hy) as [->|Hin]; [by left|]. right. by right.
Qed.

Lemma countAdded_insert (calls : list (Call Resources Snapshot)) i c c' :
  calls !! i = Some c ->
  (countAdded (<[i:=c']> calls) + (if hasAdded c then 1 else 0)
   = countAdded calls + (if hasAdded c' then 1 else 0))%nat.
Proof.
  unfold countAdded. revert i. induction calls as [|a l IH]; intros i Hi; [done|].
  destruct i as [|i]; simpl in *.
  - injection Hi as ->. destruct (hasAdded c), (hasAdded c'); simpl; lia.
  - specialize (IH i Hi). destruct (hasAdded a); simpl; lia.
Qed.

Lemma countAdded_lt (calls : list (Call Resources Snapshot)) i c :
  calls !! i = Some c -> hasAdded c = false -> (countAdded calls < length calls)%nat.
Proof.
  unfold countAdded. revert i. induction calls as [|a l IH]; intros i Hi Hc; [done|].
  pose proof (filter_length_le hasAdded l) as Hle.
  destruct i as [|i]; simpl in *.
  - injection Hi as ->. rewrite Hc. lia.
  - specialize (IH i Hi Hc). destruct (hasAdded a); simpl; lia.
Qed.

Lemma countAdded_pos (calls : list (Call Resources Snapshot)) i c :
  calls !! i = Some c -> hasAdded c = true -> (0 < countAdded calls)%nat.
Proof.
  unfold countAdded. revert i. induction calls as [|a l IH]; intros i Hi Hc; [done|].
  destruct i as [|i]; simpl in *.
  - injection Hi as ->. rewrite Hc. simpl. lia.
  - specialize (IH i Hi Hc). destruct (hasAdded a); simpl; lia.
Qed.

Lemma step_counted v0 n sys i :
  (0 <= v0)%Z -> (v0 + Z.of_nat n < 2 ^ 64)%Z ->
  counted v0 n sys -> counted v0 n (step NewSnapshot SetSnapshot sys i).
Proof.
  intros Hv0 Hn (Hlen & Hver & Hread). unfold step.
  destruct (sys_calls sys !! i) as [c|] eqn:Hi; [|done].
  destruct (stepCall NewSnapshot SetSnapshot (sys_server sys) c) as [s' c'] eqn:Hstep.
  unfold counted. cbn [sys_server sys_calls]. rewrite length_insert.
  split; [done|].
  pose proof (countAdded_insert _ i c c' Hi) as Hcount.
  pose proof (list_elem_of_lookup_2 _ _ _ Hi) as Hc.
  unfold stepCall in Hstep. destruct (call_at c) as [| |v|v snapshot|e] eqn:Hat.
  - injection Hstep as <- <-.
    assert (hasAdded c = false) as Hf by (unfold hasAdded; by rewrite Hat).
    pose proof (countAdded_lt _ i c Hi Hf) as Hlt.
    rewrite Hf in Hcount. cbn in Hcount.
    assert (Hnew : version (version_Add (sys_server sys) 1)
                   = (version (sys_server sys) + 1)%Z).
    { unfold version_Add, uint64. cbn. apply Z.mod_small. lia. }
    split; [rewrite Hnew; lia|].
    intros x v Hx Hxv. apply elem_of_insert_inv in Hx as [->|Hx]; [done|].
    specialize (Hread x v Hx Hxv). rewrite Hnew. lia.
  - injection Hstep as <- <-.
    assert (hasAdded c = true) as Ht by (unfold hasAdded; by rewrite Hat).
    pose proof (countAdded_pos _ i c Hi Ht) as Hpos.
    rewrite Ht in Hcount. cbn in Hcount.
    split; [lia|].
    intros x v Hx Hxv. apply elem_of_insert_inv in Hx as [->|Hx]; [|by apply (Hread x)].
    cbn in Hxv. injection Hxv as <-. unfold version_Load. lia.
  - assert (hasAdded c = true) as Ht by (unfold hasAdded; by rewrite Hat).
    rewrite Ht in Hcount.
    assert (Hv : (v0 < v <= version (sys_server sys))%Z).
    { apply (Hread c v Hc). unfold call_version. by rewrite Hat. }
    destruct (NewSnapshot (pretty v) (call_resources c)); injection Hstep as <- <-;
      cbn in Hcount; (split; [lia|]);
      intros x w Hx Hxw; (apply elem_of_insert_inv in Hx as [->|Hx]; [|by apply (Hread x)]).
    + cbn in Hxw. by injection Hxw as <-.
    + done.
  - assert (hasAdded c = true) as Ht by (unfold hasAdded; by rewrite Hat).
    rewrite Ht in Hcount.
    destruct (SetSnapshot _ _ _) as [cache' [e|]]; injection Hstep as <- <-;
      cbn in Hcount; cbn [version]; (split; [lia|]);
      intros x w Hx Hxw; (apply elem_of_insert_inv in Hx as [->|Hx]; [done|]);
      by apply (Hread x).
  - injection Hstep as <- <-. rewrite list_insert_id by done. by split.
Qed.

Lemma run_counted v0 n schedule : forall sys,
  (0 <= v0)%Z -> (v0 + Z.of_nat n < 2 ^ 64)%Z ->
  counted v0 n sys -> counted v0 n (run NewSnapshot SetSnapshot schedule sys).
Proof.
  induction schedule as [|i rest IH]; intros sys Hv0 Hn Hinv; [done|].
  unfold run. simpl. apply IH; [done..|]. by apply step_counted.
Qed.

(** X19. Under every schedule of calls that start together, the counter is
    the starting value plus the number of calls that have done their
    [Add], and every version a call has read lies above the starting
    value and not above the counter (no call reads a stale or a future
    number), as long as the counter cannot wrap around. *)
Theorem counter_counts_started_calls
    (s : Server SnapshotCache) (calls : list (string * Resources)) (schedule : list nat) :
  (0 <= version s)%Z ->
  (version s + Z.of_nat (length calls) < 2 ^ 64)%Z ->
  let final :=
    run NewSnapshot SetSnapshot schedule
      {| sys_server := s;
         sys_calls := map (fun call => newCall call.1 call.2) calls |} in
  version (sys_server final)
  = (version s + Z.of_nat (countAdded (sys_calls final)))%Z
  /\ (countAdded (sys_calls final) <= length calls)%nat
  /\ forall c v, c ∈ sys_calls final -> call_version c = Some v ->
       (version s < v <= version (sys_server final))%Z.
Proof.
  intros Hv0 Hn final.
  assert (Hfresh : forall l : list (string * Resources),
            countAdded (map (fun call => @newCall Resources Snapshot call.1 call.2) l)
            = 0%nat).
  { induction l as [|a l IH]; [done|]. unfold countAdded in *. by simpl. }
  assert (Hinv : counted (version s) (length calls) final).
  { apply run_counted; [done..|]. unfold counted. cbn [sys_server sys_calls].
    rewrite length_map, Hfresh. split; [done|]. split; [lia|].
    intros c v Hc Hcv. apply list_elem_of_fmap in Hc as (call & -> & _). done. }
  destruct Hinv as (Hlen & Hver & Hread). split; [done|]. split; [|done].
  rewrite <- Hlen. unfold countAdded. apply filter_length_le.
Qed.

Lemma step_cache_kept sys i :
  (forall c, c ∈ sys_calls sys ->
     (forall token, exists e, NewSnapshot token (call_resources c) = Err e)
     /\ forall v snapshot, call_at c <> AtSetSnapshot v snapshot) ->
  cache (sys_server (step NewSnapshot SetSnapshot sys i)) = cache (sys_server sys)
  /\ forall c, c ∈ sys_calls (step NewSnapshot SetSnapshot sys i) ->
       (forall token, exists e, NewSnapshot token (call_resources c) = Err e)
       /\ forall v snapshot, call_at c <> AtSetSnapshot v snapshot.
Proof.
  intros Hinv. unfold step.
  destruct (sys_calls sys !! i) as [c|] eqn:Hi; [|done].
  pose proof (list_elem_of_lookup_2 _ _ _ Hi) as Hc.
  destruct (Hinv c Hc) as [Hfail Hat].
  destruct (stepCall NewSnapshot SetSnapshot (sys_server sys) c) as [s' c'] eqn:Hstep.
  cbn [sys_server sys_calls].
  assert (Hgoal : cache s' = cache (sys_server sys)
                  /\ call_resources c' = call_resources c
                  /\ forall v snapshot, call_at c' <> AtSetSnapshot v snapshot).
  { unfold stepCall in Hstep. destruct (call_at c) as [| |v|v snapshot|e] eqn:Hpc.
    - by injection Hstep as <- <-.
    - by injection Hstep as <- <-.
    - destruct (Hfail (pretty v)) as [e He]. rewrite He in Hstep.
      by injection Hstep as <- <-.
    - by destruct (Hat v snapshot).
    - injection Hstep as <- <-. by rewrite Hpc. }
  destruct Hgoal as (Hcache & Hres & Hat'). split; [done|].
  intros x Hx. apply elem_of_insert_inv in Hx as [->|Hx]; [|by apply Hinv].
  split; [|done]. intros token. rewrite Hres. apply Hfail.
Qed.

(** X20. Publishes whose resource sets are all malformed never change the
    cache, however the calls are interleaved. *)
Theorem malformed_publishes_keep_cache
    (s : Server SnapshotCache) (calls : list (string * Resources)) (schedule : list nat) :
  (forall call token, call ∈ calls -> exists e, NewSnapshot token call.2 = Err e) ->
  cache (sys_server
           (run NewSnapshot SetSnapshot schedule
              {| sys_server := s;
                 sys_calls := map (fun call => newCall call.1 call.2) calls |}))
  = cache s.
Proof.
  intros Hfail.
  assert (Hgen : forall sched sys,
            (forall c, c ∈ sys_calls sys ->
               (forall token, exists e, NewSnapshot token (call_resources c) = Err e)
               /\ forall v snapshot, call_at c <> AtSetSnapshot v snapshot) ->
            cache (sys_server (run NewSnapshot SetSnapshot sched sys))
            = cache (sys_server sys)).
  { induction sched as [|i rest IH]; intros sys Hinv; [done|].
    unfold run. simpl. destruct (step_cache_kept sys i Hinv) as [Hc Hinv'].
    rewrite <- Hc. by apply IH. }
  rewrite Hgen; [done|]. cbn [sys_calls].
  intros c Hc. apply list_elem_of_fmap in Hc as (call & -> & Hin).
  split; [|done]. intros token. by apply Hfail.
Qed.

End Interleavings.

(* ===================================================================== *)
(** ** The issuer lookup                                                 *)
(* ===================================================================== *)

(** X21. An issuer is returned exactly when the transport can be built, the
    GET of "<host>/.well-known/openid-configuration" succeeds with status
    200, the body decodes, and the decoded issuer is not empty; so the
    function never returns an empty issuer, and any other status, 2xx
    included, is an error. *)
Theorem GetK8sIssuer_success {Config Transport Body : Type}
    (Host : Config -> string) (TransportFor : Config -> result Transport)
    (client_Get : Transport -> string -> result (Z * Body))
    (decodeIssuer : Body -> result string) (config : Config) (issuer : string) :
  GetK8sIssuer Host TransportFor client_Get decodeIssuer config = Ok issuer
  <-> exists transport body,
        TransportFor config = Ok transport
        /\ client_Get transport (Host config +:+ "/.well-known/openid-configuration")
           = Ok (200%Z, body)
        /\ decodeIssuer body = Ok issuer
        /\ issuer <> "".
Proof.
  unfold GetK8sIssuer.
  destruct (TransportFor config) as [transport|e];
    [|split; [done | by intros (? & ? & ? & _)]].
  destruct (client_Get transport _) as [[status body]|e] eqn:Hget;
    [|split; [done | intros (? & ? & [= <-] & ? & _); congruence]].
  case_bool_decide as Hstatus.
  { split; [done|]. intros (? & ? & [= <-] & Hg & _). rewrite Hget in Hg.
    injection Hg as -> _. done. }
  assert (status = 200%Z) as -> by (by destruct (decide (status = 200%Z))).
  destruct (decodeIssuer body) as [iss|e] eqn:Hdec.
  - case_bool_decide as Hempty.
    + split; [done|]. intros (? & b & [= <-] & Hg & Hd & Hne).
      rewrite Hget in Hg. injection Hg as <-. congruence.
    + split.
      * intros [= <-]. by exists transport, body.
      * intros (? & b & [= <-] & Hg & Hd & Hne).
        rewrite Hget in Hg. injection Hg as <-. congruence.
  - split; [done|]. intros (? & b & [= <-] & Hg & Hd & _).
    rewrite Hget in Hg. injection Hg as <-. congruence.
Qed.

(** The two racing calls of the sample: the counter ends at 2 and nobody
    has read anything outside 1..2. *)
Lemma counter_counts_started_calls_witness :
  version (sys_server
             (run Sample.NewSnapshot Sample.SetSnapshot Sample.racingSchedule
                Sample.twoCalls))
  = (0 + Z.of_nat
           (countAdded
              (sys_calls
                 (run Sample.NewSnapshot Sample.SetSnapshot Sample.racingSchedule
                    Sample.twoCalls))))%Z.
Proof.
  apply (counter_counts_started_calls Sample.NewSnapshot Sample.SetSnapshot
           Sample.freshServer [("node-a", ["listener"]); ("node-b", ["cluster"])]
           Sample.racingSchedule).
  - simpl. lia.
  - simpl. lia.
Defined.

(** Two malformed publishes on top of a committed snapshot, interleaved. *)
Lemma malformed_publishes_keep_cache_witness :
  cache (sys_server
           (run Sample.NewSnapshot Sample.SetSnapshot Sample.racingSchedule
              {| sys_server := (Sample.update Sample.freshServer "node-a" ["listener"]).1;
                 sys_calls :=
                   [newCall "node-a" ["unknown"]; newCall "node-b" ["unknown"; "cluster"]] |}))
  = cache (Sample.update Sample.freshServer "node-a" ["listener"]).1.
Proof.
  apply (malformed_publishes_keep_cache Sample.NewSnapshot Sample.SetSnapshot
           (Sample.update Sample.freshServer "node-a" ["listener"]).1
           [("node-a", ["unknown"]); ("node-b", ["unknown"; "cluster"])]
           Sample.racingSchedule).
  intros call token Hin.
  apply elem_of_cons in Hin as [->|Hin];
    [|apply list_elem_of_singleton in Hin as ->];
    by eexists.
Defined.
